(** * Moltbot-DingTalk bridge (src/index.js): shallow embedding and properties

    The bridge is one Express application.  It receives DingTalk webhook
    events, forwards the text to the [moltbot] command line agent and posts the
    agent's reply back to DingTalk.  This development embeds the functions of
    [src/index.js] as Rocq functions and the server as a state machine whose
    steps are the turns of the Node event loop, and proves the properties the
    specification states about them.

    Conventions.
    - A JavaScript string is represented by the bytes of its UTF-8 encoding
      (a Rocq [string]); strings are assumed well formed (no lone surrogate).
    - A JavaScript exception is the [Throw] case of [completion].
    - JSON numbers are modelled on the integers that JavaScript prints in
      plain decimal digits; no code path below distinguishes other numbers
      (they are truthy unless zero, and have no properties).
    - The environment (the agent process, the HTTP client, the clock, the
      timer) enters through the inputs of the step function.
    - Console output is not modelled.  The one template literal that is
      logged before the response is sent is evaluated all the same, since
      converting a value to a string can throw.
    - A rejected promise that nobody awaits is recorded as an event and the
      server goes on. *)

From Stdlib Require Import ZArith NArith Ascii Lia.
From stdpp Require Import base gmap strings list fin_maps pretty.

(** ** JavaScript strings *)

Module JsString.

Definition code (c : ascii) : N := N_of_ascii c.

(** The double quote and the backslash, by character code. *)
Definition dquote : ascii := ascii_of_N 34.
Definition backslash : ascii := ascii_of_N 92.
Definition newline : ascii := ascii_of_N 10.

(** ECMAScript WhiteSpace and LineTerminator code points, as UTF-8:
    U+0009..U+000D and U+0020 take one byte, U+00A0 two, and U+1680,
    U+2000..U+200A, U+2028, U+2029, U+202F, U+205F, U+3000 and U+FEFF
    three. *)
Definition ws1 (a : ascii) : bool :=
  ((9 <=? code a) && (code a <=? 13) || (code a =? 32))%N.

Definition ws2 (a b : ascii) : bool :=
  ((code a =? 0xC2) && (code b =? 0xA0))%N.

Definition ws3 (a b c : ascii) : bool :=
  (((code a =? 0xE1) && (code b =? 0x9A) && (code c =? 0x80))
   || ((code a =? 0xE2) && (code b =? 0x80)
       && (((0x80 <=? code c) && (code c <=? 0x8A))
           || (code c =? 0xA8) || (code c =? 0xA9) || (code c =? 0xAF)))
   || ((code a =? 0xE2) && (code b =? 0x81) && (code c =? 0x9F))
   || ((code a =? 0xE3) && (code b =? 0x80) && (code c =? 0x80))
   || ((code a =? 0xEF) && (code b =? 0xBB) && (code c =? 0xBF)))%N.

(** [strip p1 p2 p3 s] removes from the front of [s] every character that
    [p1], [p2] or [p3] recognises by its one, two or three bytes. *)
Fixpoint strip (p1 : ascii → bool) (p2 : ascii → ascii → bool)
    (p3 : ascii → ascii → ascii → bool) (s : string) : string :=
  match s with
  | EmptyString => EmptyString
  | String a t =>
      if p1 a then strip p1 p2 p3 t
      else match t with
           | String b u =>
               if p2 a b then strip p1 p2 p3 u
               else match u with
                    | String c v => if p3 a b c then strip p1 p2 p3 v else s
                    | EmptyString => s
                    end
           | EmptyString => s
           end
  end.

Definition trimStart (s : string) : string := strip ws1 ws2 ws3 s.

(** The end is trimmed on the reversed string, where the bytes of a
    character come last byte first. *)
Definition trimEnd (s : string) : string :=
  String.rev
    (strip ws1 (λ b a, ws2 a b) (λ c b a, ws3 a b c) (String.rev s)).

(** [String.prototype.trim]. *)
Definition trim (s : string) : string := trimEnd (trimStart s).

(** [s.includes(k)]: [k] occurs in [s]. *)
Fixpoint includes (s k : string) : bool :=
  String.prefix k s
  || match s with
     | EmptyString => false
     | String _ t => includes t k
     end.

(** [s.replace(/"/g, '\\"')]: a backslash before every double quote. *)
Fixpoint replace_dquote (s : string) : string :=
  match s with
  | EmptyString => EmptyString
  | String c t =>
      if Ascii.eqb c dquote
      then String backslash (String dquote (replace_dquote t))
      else String c (replace_dquote t)
  end.

(** The bytes [hmac.update] and [createHmac] read from a string (UTF-8). *)
Definition bytes (s : string) : list N := code <$> String.list_ascii_of_string s.

Definition truthy (s : string) : bool :=
  match s with EmptyString => false | _ => true end.

End JsString.

(** ** SHA-256 (FIPS 180-4), HMAC (RFC 2104) and base64 (RFC 4648)

    [crypto.createHmac('sha256', key).update(data).digest('base64')] of Node,
    on bytes.  A word is a natural number below [2^32]. *)

Module Sha256.
Local Open Scope N_scope.

Definition word (x : N) : N := x mod 2 ^ 32.

Definition rotr (n x : N) : N :=
  N.lor (N.shiftr x n) (word (N.shiftl x (32 - n))).

Definition xor3 (x y z : N) : N := N.lxor (N.lxor x y) z.

Definition Ch (x y z : N) : N :=
  N.lxor (N.land x y) (N.land (N.lxor x 0xFFFFFFFF) z).

Definition Maj (x y z : N) : N :=
  xor3 (N.land x y) (N.land x z) (N.land y z).

Definition Sigma0 (x : N) : N := xor3 (rotr 2 x) (rotr 13 x) (rotr 22 x).
Definition Sigma1 (x : N) : N := xor3 (rotr 6 x) (rotr 11 x) (rotr 25 x).
Definition sigma0 (x : N) : N := xor3 (rotr 7 x) (rotr 18 x) (N.shiftr x 3).
Definition sigma1 (x : N) : N := xor3 (rotr 17 x) (rotr 19 x) (N.shiftr x 10).

(** The round constants are the first thirty-two bits of the fractional
    parts of the cube roots of the first sixty-four primes, the initial hash
    value those of the square roots of the first eight (FIPS 180-4, 4.2.2
    and 5.3.3).  [iroot k bits n r] adds to [r], a bit at a time from
    [2^bits] down, what keeps its [k]-th power at most [n]. *)
Fixpoint iroot (k : N) (bits : nat) (n r : N) : N :=
  match bits with
  | O => r
  | S b =>
      let r' := r + 2 ^ N.of_nat b in
      iroot k b n (if r' ^ k <=? n then r' else r)
  end.

Definition root_fraction (k p : N) : N :=
  word (iroot k 36 (p * 2 ^ (32 * k)) 0).

Definition is_prime (n : N) : bool :=
  forallb (λ d, negb (n mod N.of_nat d =? 0)) (seq 2 (N.to_nat n - 2)).

Definition primes (count : nat) : list N :=
  take count (List.filter is_prime (N.of_nat <$> seq 2 310)).

Definition K : list N := Eval vm_compute in root_fraction 3 <$> primes 64.

Definition H0 : list N := Eval vm_compute in root_fraction 2 <$> primes 8.

(** Big-endian bytes of a number, [n] of them. *)
Fixpoint be_bytes (n : nat) (x : N) : list N :=
  match n with
  | O => []
  | S m => (N.shiftr x (8 * N.of_nat m)) mod 256 :: be_bytes m x
  end.

(** Message padding: a one bit, zeros up to 56 modulo 64 bytes, and the
    length in bits on eight bytes. *)
Definition pad (msg : list N) : list N :=
  let len := N.of_nat (length msg) in
  let zeros := (64 - (len + 9) mod 64) mod 64 in
  msg ++ 0x80 :: replicate (N.to_nat zeros) 0 ++ be_bytes 8 (8 * len).

(** Bytes to big-endian 32-bit words. *)
Fixpoint words (l : list N) : list N :=
  match l with
  | a :: b :: c :: d :: rest =>
      (N.shiftl a 24 + N.shiftl b 16 + N.shiftl c 8 + d) :: words rest
  | _ => []
  end.

(** The message schedule, most recent word first: [n] more words after
    the sixteen of the block. *)
Fixpoint schedule (n : nat) (rev_w : list N) : list N :=
  match n with
  | O => rev_w
  | S m =>
      let at_ i := nth i rev_w 0 in
      schedule m
        (word (sigma1 (at_ 1%nat) + at_ 6%nat + sigma0 (at_ 14%nat)
               + at_ 15%nat) :: rev_w)
  end.

Definition round (s : list N) (kw : N * N) : list N :=
  match s with
  | [a; b; c; d; e; f; g; h] =>
      let t1 := word (h + Sigma1 e + Ch e f g + kw.1 + kw.2) in
      let t2 := word (Sigma0 a + Maj a b c) in
      [word (t1 + t2); a; b; c; word (d + t1); e; f; g]
  | _ => s
  end.

(** One block of sixteen words folded into the hash value. *)
Definition compress (h : list N) (block : list N) : list N :=
  let w := rev (schedule 48 (rev block)) in
  zip_with (λ x y, word (x + y)) h (foldl round h (zip K w)).

Fixpoint blocks (n : nat) (h : list N) (ws : list N) : list N :=
  match n with
  | O => h
  | S m => blocks m (compress h (take 16 ws)) (drop 16 ws)
  end.

Definition digest (msg : list N) : list N :=
  let ws := words (pad msg) in
  blocks (length ws / 16) H0 ws ≫= be_bytes 4.

(** HMAC-SHA256: a key longer than the block is hashed first. *)
Definition hmac (key msg : list N) : list N :=
  let k := if (64 <? N.of_nat (length key)) then digest key else key in
  let k := k ++ replicate (64 - length k) 0 in
  digest ((N.lxor 0x5c <$> k) ++ digest ((N.lxor 0x36 <$> k) ++ msg)).

End Sha256.

Module Base64.
Local Open Scope N_scope.

Definition alphabet : string :=
  "ABCDEFGHIJKLMNOPQRSTUVWXYZabcdefghijklmnopqrstuvwxyz0123456789+/".

Definition digit (x : N) : ascii :=
  default "="%char (String.get (N.to_nat (x mod 64)) alphabet).

Fixpoint encode (l : list N) : string :=
  match l with
  | [] => EmptyString
  | [a] =>
      String (digit (N.shiftr a 2))
        (String (digit (N.shiftl a 4)) "==")
  | [a; b] =>
      String (digit (N.shiftr a 2))
        (String (digit (N.shiftl a 4 + N.shiftr b 4))
           (String (digit (N.shiftl b 2)) "="))
  | a :: b :: c :: rest =>
      String (digit (N.shiftr a 2))
        (String (digit (N.shiftl a 4 + N.shiftr b 4))
           (String (digit (N.shiftl b 2 + N.shiftr c 6))
              (String (digit c) (encode rest))))
  end.

End Base64.

(** A hexadecimal rendering, for the published test vectors. *)
Definition hex (l : list N) : string :=
  let d (x : N) := default "?"%char (String.get (N.to_nat x) "0123456789abcdef") in
  foldr (λ b s, String (d (b / 16)%N) (String (d (b mod 16)%N) s)) EmptyString l.

(** ** JavaScript values and exceptions *)

(** The values [JSON.parse] builds, and [undefined] for a missing property.
    [JObj] lists the own properties of an object; [JArr] is an array (an
    object too, for [typeof]). *)
#[local] Unset Elimination Schemes.
Inductive jsval : Type :=
  | JUndefined
  | JNull
  | JBool (b : bool)
  | JNum (n : Z)
  | JStr (s : string)
  | JArr (elems : list jsval)
  | JObj (fields : list (string * jsval)).
#[local] Set Elimination Schemes.

Inductive js_error : Type :=
  | TypeError.

(** The result of evaluating an expression that may throw. *)
Inductive completion (A : Type) : Type :=
  | Normal (a : A)
  | Throw (e : js_error).
Arguments Normal {A} a.
Arguments Throw {A} e.

Definition completion_bind {A B : Type} (f : A → completion B)
    (c : completion A) : completion B :=
  match c with
  | Normal a => f a
  | Throw e => Throw e
  end.

#[global] Instance completion_mbind : MBind completion := @completion_bind.
#[global] Instance completion_mret : MRet completion := @Normal.

Fixpoint lookup_field (name : string) (fields : list (string * jsval)) : jsval :=
  match fields with
  | [] => JUndefined
  | (k, v) :: rest => if String.eqb k name then v else lookup_field name rest
  end.

Definition nullish (v : jsval) : bool :=
  match v with
  | JUndefined | JNull => true
  | _ => false
  end.

(** [v.name] for the property names the program reads ([text], [content],
    [senderStaffId], [senderId], [id], [conversationId], [conversationType],
    [header], [body]): none of them is a property of [Object.prototype],
    [Array.prototype] or of the wrappers of primitive values, so the value is
    the own property of an object and [undefined] elsewhere.  Reading a
    property of [undefined] or [null] throws a [TypeError]. *)
Definition Get (v : jsval) (name : string) : completion jsval :=
  match v with
  | JUndefined | JNull => Throw TypeError
  | JObj fields => Normal (lookup_field name fields)
  | _ => Normal JUndefined
  end.

(** [v?.name]. *)
Definition OptGet (v : jsval) (name : string) : completion jsval :=
  if nullish v then Normal JUndefined else Get v name.

Definition ToBoolean (v : jsval) : bool :=
  match v with
  | JUndefined | JNull => false
  | JBool b => b
  | JNum n => negb (n =? 0)%Z
  | JStr s => JsString.truthy s
  | JArr _ | JObj _ => true
  end.

Definition has_field (name : string) (fields : list (string * jsval)) : bool :=
  existsb (λ kv, String.eqb kv.1 name) fields.

(** [ToString], as a template literal applies it.  An array is joined with
    commas, [null] and [undefined] elements giving the empty string.  An
    object parsed from JSON holds no function: when it has an own [toString]
    property, neither that nor [valueOf] yields a primitive and the conversion
    throws; otherwise [Object.prototype.toString] answers. *)
Fixpoint ToString (v : jsval) : completion string :=
  match v with
  | JUndefined => Normal "undefined"
  | JNull => Normal "null"
  | JBool b => Normal (if b then "true" else "false")
  | JNum n => Normal (pretty n)
  | JStr s => Normal s
  | JArr elems =>
      (fix join (l : list jsval) : completion string :=
         match l with
         | [] => Normal ""
         | x :: rest =>
             s ← (if nullish x then Normal "" else ToString x);
             match rest with
             | [] => Normal s
             | _ => r ← join rest; Normal (s +:+ "," +:+ r)
             end
         end) elems
  | JObj fields =>
      if has_field "toString" fields then Throw TypeError
      else Normal "[object Object]"
  end.

(** [v.trim()]: only a string has the method. *)
Definition call_trim (v : jsval) : completion string :=
  match v with
  | JStr s => Normal (JsString.trim s)
  | JUndefined | JNull => Throw TypeError
  | _ => Throw TypeError
  end.

(** [v === 'literal']. *)
Definition strict_eq_string (v : jsval) (lit : string) : bool :=
  match v with
  | JStr s => String.eqb s lit
  | _ => false
  end.

(** ** Configuration and session store *)

Record config : Type := {
  dingtalkSignKey : string;
  moltbotPath : string;
  dingtalkWebhookUrl : string;
  dingtalkKeyword : string;
  (** milliseconds; a duration *)
  sessionTimeout : N
}.

(** [process.env.NAME || fallback]. *)
Definition env_or (env : gmap string string) (name fallback : string) : string :=
  match env !! name with
  | Some v => if JsString.truthy v then v else fallback
  | None => fallback
  end.

Definition CONFIG (env : gmap string string) : config := {|
  dingtalkSignKey := env_or env "DINGTALK_SIGN_KEY" "";
  moltbotPath := env_or env "MOLTBOT_PATH" "moltbot";
  dingtalkWebhookUrl := env_or env "DINGTALK_WEBHOOK_URL" "";
  dingtalkKeyword := env_or env "DINGTALK_KEYWORD" "Moltbot";
  sessionTimeout := 5 * 60 * 1000
|}.

Record session : Type := {
  lastActivity : Z;
  processing : bool
}.

(** [CONFIG.sessions], a [Map] from session id to session. *)
Abbreviation sessions_map := (gmap string session).

(** ** verifySignature *)

Definition verifySignature (cfg : config) (timestamp sign : string)
    (body : jsval) : bool :=
  if negb (JsString.truthy (dingtalkSignKey cfg)) then true
  else
    let stringToSign :=
      timestamp +:+ String JsString.newline (dingtalkSignKey cfg) in
    let computedSign :=
      Base64.encode
        (Sha256.hmac (JsString.bytes (dingtalkSignKey cfg))
           (JsString.bytes stringToSign)) in
    String.eqb sign computedSign.

(** ** parseDingtalkMessage *)

Record message : Type := {
  type : string;
  content : string;
  userId : jsval;
  chatId : jsval;
  isGroup : bool
}.

Definition parseDingtalkMessage (data : jsval) : completion (option message) :=
  text ← Get data "text";
  c ← OptGet text "content";
  if ToBoolean c then
    text ← Get data "text";
    c ← Get text "content";
    content ← call_trim c;
    senderStaffId ← Get data "senderStaffId";
    userId ← (if ToBoolean senderStaffId then Normal senderStaffId
              else senderId ← Get data "senderId"; OptGet senderId "id");
    chatId ← Get data "conversationId";
    conversationType ← Get data "conversationType";
    Normal (Some {| type := "text";
                    content := content;
                    userId := userId;
                    chatId := chatId;
                    isGroup := strict_eq_string conversationType "group" |})
  else Normal None.

(** ** getSessionId *)

Definition getSessionId (chatId userId : jsval) : completion string :=
  c ← ToString chatId;
  u ← ToString userId;
  Normal (c +:+ ":" +:+ u).

(** ** Asynchronous code

    An [async] function is a program of [io]: between two [await]s it reads
    the clock and reads and writes [CONFIG.sessions]; at an [await] it hands
    an operation to the environment and resumes with its result.  The source
    awaits two operations: [execAsync] (the promisified [child_process.exec])
    and [axios.post]. *)

(** How [execAsync] settles: resolved with the two output streams, or
    rejected with an error carrying [killed] and [message].  Node sets
    [killed] on the error of a child it killed when the [timeout] option
    ran out; an error without the property reads as [false]. *)
Inductive exec_result : Type :=
  | ExecResolved (stdout stderr : string)
  | ExecRejected (killed : bool) (message : string).

(** How [axios.post] settles ([require('axios')] failing is a rejection). *)
Inductive post_result : Type :=
  | PostResolved
  | PostRejected (message : string).

Inductive io (A : Type) : Type :=
  | Ret (a : A)
  | DateNow (k : Z → io A)
  | MapHas (key : string) (k : bool → io A)
  | MapGet (key : string) (k : option session → io A)
  | MapSet (key : string) (v : session) (k : io A)
  | MapDelete (key : string) (k : io A)
  | MapEntries (k : list (string * session) → io A)
  | AwaitExec (cmd : string) (timeout : Z) (k : exec_result → io A)
  | AwaitPost (url : string) (payload : jsval) (k : post_result → io A).
Arguments Ret {A} a.
Arguments DateNow {A} k.
Arguments MapHas {A} key k.
Arguments MapGet {A} key k.
Arguments MapSet {A} key v k.
Arguments MapDelete {A} key k.
Arguments MapEntries {A} k.
Arguments AwaitExec {A} cmd timeout k.
Arguments AwaitPost {A} url payload k.

Fixpoint io_bind {A B : Type} (f : A → io B) (p : io A) : io B :=
  match p with
  | Ret a => f a
  | DateNow k => DateNow (λ t, io_bind f (k t))
  | MapHas key k => MapHas key (λ b, io_bind f (k b))
  | MapGet key k => MapGet key (λ v, io_bind f (k v))
  | MapSet key v k => MapSet key v (io_bind f k)
  | MapDelete key k => MapDelete key (io_bind f k)
  | MapEntries k => MapEntries (λ l, io_bind f (k l))
  | AwaitExec cmd timeout k => AwaitExec cmd timeout (λ r, io_bind f (k r))
  | AwaitPost url payload k => AwaitPost url payload (λ r, io_bind f (k r))
  end.

#[global] Instance io_mbind : MBind io := @io_bind.
#[global] Instance io_mret : MRet io := @Ret.

(** The operations, as the source calls them. *)
Definition Date_now : io Z := DateNow Ret.
Definition sessions_has (id : string) : io bool := MapHas id Ret.
Definition sessions_get (id : string) : io (option session) := MapGet id Ret.
Definition sessions_set (id : string) (v : session) : io unit :=
  MapSet id v (Ret tt).
Definition sessions_delete (id : string) : io unit := MapDelete id (Ret tt).
Definition sessions_entries : io (list (string * session)) := MapEntries Ret.
Definition execAsync (cmd : string) (timeout : Z) : io exec_result :=
  AwaitExec cmd timeout Ret.
Definition axios_post (url : string) (payload : jsval) : io post_result :=
  AwaitPost url payload Ret.

(** [for (const x of l) body(x)]. *)
Definition for_of {X : Type} (l : list X) (body : X → io unit) : io unit :=
  foldr (λ x rest, _ ← body x; rest) (Ret tt) l.

(** [try { body } catch (error) { handler(error) } finally { final }]. *)
Definition try_catch_finally {A : Type} (body : io (completion A))
    (handler : js_error → io (completion A)) (final : io unit)
    : io (completion A) :=
  r ← body;
  r ← match r with
      | Normal a => Ret (Normal a)
      | Throw error => handler error
      end;
  _ ← final;
  Ret r.

(** ** sendToDingtalk *)

(** The [payload] object of [sendToDingtalk]. *)
Definition text_payload (message : string) : jsval :=
  JObj [("msgtype", JStr "text");
        ("text", JObj [("content", JStr message)])].

Definition sendToDingtalk (webhookUrl message : string) : io bool :=
  if negb (JsString.truthy webhookUrl) then Ret false
  else
    let payload := text_payload message in
    r ← axios_post webhookUrl payload;
    match r with
    | PostResolved => Ret true
    | PostRejected _ => Ret false
    end.

(** ** sendToMoltbot *)

(** The command line handed to the shell. *)
Definition agent_command (cfg : config) (message : string) : string :=
  moltbotPath cfg +:+ " agent --message "
  +:+ String JsString.dquote
        (JsString.replace_dquote message
         +:+ String JsString.dquote " --timeout 120").

Definition sendToMoltbot (cfg : config) (message : string) (chatId : jsval)
    : io string :=
  r ← execAsync (agent_command cfg message) 130000;
  match r with
  | ExecResolved stdout stderr =>
      let response := JsString.trim stdout in
      if negb (JsString.truthy response) && JsString.truthy stderr
      then Ret (JsString.trim stderr)
      else Ret (if JsString.truthy response then response
                else "消息已发送，但未收到回复")
  | ExecRejected killed message =>
      if killed then Ret "处理超时，请稍后再试"
      else Ret ("处理失败: " +:+ message)
  end.

(** ** cleanupSessions *)

Definition cleanupSessions (cfg : config) : io unit :=
  now ← Date_now;
  entries ← sessions_entries;
  for_of entries (λ entry,
    if (now - lastActivity entry.2 >? Z.of_N (sessionTimeout cfg))%Z
    then sessions_delete entry.1
    else Ret tt).

(** ** The webhook handler *)

(** The asynchronous part of the handler (the [async] arrow function called
    on the spot, lines 174 to 203).  An exception escaping it rejects its
    promise, which nobody awaits. *)
Definition process_message (cfg : config) (m : message)
    : io (completion unit) :=
  match getSessionId (chatId m) (userId m) with
  | Throw e => Ret (Throw e)
  | Normal sessionId =>
      busy ← sessions_has sessionId;
      if busy : bool then
        _ ← sessions_get sessionId;
        _ ← sendToDingtalk (dingtalkWebhookUrl cfg) "请稍候，我正在思考...";
        Ret (Normal tt)
      else
        now ← Date_now;
        _ ← sessions_set sessionId {| lastActivity := now; processing := true |};
        try_catch_finally
          (response ← sendToMoltbot cfg (content m) (chatId m);
           _ ← sendToDingtalk (dingtalkWebhookUrl cfg) response;
           Ret (Normal tt))
          (λ error,
             _ ← sendToDingtalk (dingtalkWebhookUrl cfg) "抱歉，处理消息时出错";
             Ret (Normal tt))
          (sessions_delete sessionId)
  end.

(** A request, as the handler reads it: the two signature headers and
    [req.body], the JSON body parsed by [express.json()]. *)
Record request : Type := {
  signature_timestamp : option string;
  signature : option string;
  req_body : jsval
}.

(** What the handler does, in order: answer the caller, start the
    asynchronous part. *)
Inductive action : Type :=
  | Respond (status : Z) (body : jsval)
  | Spawn (p : io (completion unit)).

Definition header_truthy (h : option string) : bool :=
  match h with
  | Some s => JsString.truthy s
  | None => false
  end.

(** The line logged when a message is accepted; the template literal
    converts [message.userId] to a string. *)
Definition received_log (m : message) : completion string :=
  u ← ToString (userId m);
  Normal ("收到消息 [" +:+ (if isGroup m then "群" else "私") +:+ "聊] "
          +:+ u +:+ ": " +:+ content m).

Definition json_status (s : string) : jsval := JObj [("status", JStr s)].
Definition json_error (s : string) : jsval := JObj [("error", JStr s)].

(** [app.post('/webhook/dingtalk', ...)]: the body of the [try] computes the
    actions or throws; the [catch] answers 500. *)
Definition webhook_try (cfg : config) (req : request) : completion (list action) :=
  _ ← Get (req_body req) "header";
  body ← Get (req_body req) "body";
  let timestamp := signature_timestamp req in
  let sign := signature req in
  if header_truthy timestamp && header_truthy sign
     && negb (verifySignature cfg (default "" timestamp) (default "" sign) body)
  then Normal [Respond 401 (json_error "签名验证失败")]
  else
    parsed ← parseDingtalkMessage body;
    match parsed with
    | None => Normal [Respond 200 (json_status "ignored")]
    | Some m =>
        if JsString.truthy (dingtalkKeyword cfg)
           && negb (JsString.includes (content m) (dingtalkKeyword cfg))
        then Normal [Respond 200 (json_status "keyword_mismatch")]
        else
          _ ← received_log m;
          Normal [Respond 200 (json_status "ok"); Spawn (process_message cfg m)]
    end.

Definition webhook_dingtalk (cfg : config) (req : request) : list action :=
  match webhook_try cfg req with
  | Normal actions => actions
  | Throw _ => [Respond 500 (json_error "内部错误")]
  end.

(** ** The server as a state machine

    One step is one turn of the event loop: a request handled up to the
    first [await] of its asynchronous part, the resumption of a suspended
    asynchronous part when the operation it awaits settles, or the timer
    running [cleanupSessions].  Promise reactions run before the next turn,
    so an [await] of an already settled value does not end the step. *)

(** A suspended program: the operation awaited and the continuation. *)
Inductive pending (A : Type) : Type :=
  | OnExec (cmd : string) (timeout : Z) (k : exec_result → io A)
  | OnPost (url : string) (payload : jsval) (k : post_result → io A).
Arguments OnExec {A} cmd timeout k.
Arguments OnPost {A} url payload k.

Inductive status (A : Type) : Type :=
  | Done (a : A)
  | Blocked (w : pending A).
Arguments Done {A} a.
Arguments Blocked {A} w.

(** [run now p m] runs [p] on the session map [m] until it returns or
    awaits an operation; [now] is what [Date.now()] reads in this turn. *)
Fixpoint run {A : Type} (now : Z) (p : io A) (m : sessions_map)
    : sessions_map * status A :=
  match p with
  | Ret a => (m, Done a)
  | DateNow k => run now (k now) m
  | MapHas key k => run now (k (bool_decide (is_Some (m !! key)))) m
  | MapGet key k => run now (k (m !! key)) m
  | MapSet key v k => run now k (<[key := v]> m)
  | MapDelete key k => run now k (delete key m)
  | MapEntries k => run now (k (map_to_list m)) m
  | AwaitExec cmd timeout k => (m, Blocked (OnExec cmd timeout k))
  | AwaitPost url payload k => (m, Blocked (OnPost url payload k))
  end.

Record server : Type := {
  (** [CONFIG.sessions] *)
  sessions : sessions_map;
  (** the suspended asynchronous parts, by request number *)
  tasks : gmap nat (pending (completion unit));
  (** the number of the next request *)
  next_id : nat
}.

Definition initial : server :=
  {| sessions := ∅; tasks := ∅; next_id := 0 |}.

(** What a step shows to the outside. *)
Inductive event : Type :=
  | Response (id : nat) (status : Z) (body : jsval)
  | ExecCall (id : nat) (cmd : string) (timeout : Z)
  | PostCall (id : nat) (url : string) (payload : jsval)
  | UnhandledRejection (id : nat) (e : js_error).

Inductive input : Type :=
  | Request (req : request)
  | ExecSettled (id : nat) (r : exec_result)
  | PostSettled (id : nat) (r : post_result)
  | Timer.

(** Record where the asynchronous part [id] stands after a run. *)
Definition settle (id : nat) (r : sessions_map * status (completion unit))
    (srv : server) : server * list event :=
  match r.2 with
  | Done c =>
      ({| sessions := r.1; tasks := delete id (tasks srv);
          next_id := next_id srv |},
       match c with
       | Normal _ => []
       | Throw e => [UnhandledRejection id e]
       end)
  | Blocked w =>
      ({| sessions := r.1; tasks := <[id := w]> (tasks srv);
          next_id := next_id srv |},
       [match w with
        | OnExec cmd timeout _ => ExecCall id cmd timeout
        | OnPost url payload _ => PostCall id url payload
        end])
  end.

Definition perform (now : Z) (id : nat) (acc : server * list event)
    (a : action) : server * list event :=
  match a with
  | Respond status body => (acc.1, acc.2 ++ [Response id status body])
  | Spawn p =>
      let r := settle id (run now p (sessions acc.1)) acc.1 in
      (r.1, acc.2 ++ r.2)
  end.

Definition step (cfg : config) (now : Z) (srv : server) (i : input)
    : server * list event :=
  match i with
  | Request req =>
      let id := next_id srv in
      foldl (perform now id)
        ({| sessions := sessions srv; tasks := tasks srv; next_id := S id |}, [])
        (webhook_dingtalk cfg req)
  | ExecSettled id r =>
      match tasks srv !! id with
      | Some (OnExec _ _ k) => settle id (run now (k r) (sessions srv)) srv
      | _ => (srv, [])
      end
  | PostSettled id r =>
      match tasks srv !! id with
      | Some (OnPost _ _ k) => settle id (run now (k r) (sessions srv)) srv
      | _ => (srv, [])
      end
  | Timer =>
      ({| sessions := (run now (cleanupSessions cfg) (sessions srv)).1;
          tasks := tasks srv; next_id := next_id srv |}, [])
  end.

(** A run of the server: the inputs with the clock reading of each turn. *)
Fixpoint steps (cfg : config) (srv : server) (l : list (Z * input))
    : server * list event :=
  match l with
  | [] => (srv, [])
  | (now, i) :: rest =>
      let r := step cfg now srv i in
      let r' := steps cfg r.1 rest in
      (r'.1, r.2 ++ r'.2)
  end.

(** The asynchronous part of request [id] is suspended. *)
Definition suspended (srv : server) (id : nat) : bool :=
  match tasks srv !! id with
  | Some _ => true
  | None => false
  end.

(** The events of a run in which the agent is started. *)
Definition is_exec (e : event) : bool :=
  match e with
  | ExecCall _ _ _ => true
  | _ => false
  end.

Definition is_response (e : event) : bool :=
  match e with
  | Response _ _ _ => true
  | _ => false
  end.

Definition invocations (evs : list event) : nat :=
  length (filter (λ e, is_exec e = true) evs).

(** ** Notions the properties are stated with *)

(** [typeof v === 'object' && v !== null]. *)
Definition is_object (v : jsval) : bool :=
  match v with
  | JArr _ | JObj _ => true
  | _ => false
  end.

(** The handler accepted the request: it acknowledged with [ok] and started
    the asynchronous part for message [m]. *)
Definition accepted (cfg : config) (req : request) (m : message) : Prop :=
  webhook_dingtalk cfg req
  = [Respond 200 (json_status "ok"); Spawn (process_message cfg m)].

(** The request passes the signature check, is parsed to [m], and [m] passes
    the keyword filter. *)
Definition passes_filters (cfg : config) (req : request) (m : message) : Prop :=
  ∃ body,
    Get (req_body req) "body" = Normal body
    ∧ (header_truthy (signature_timestamp req) = true →
       header_truthy (signature req) = true →
       verifySignature cfg (default "" (signature_timestamp req))
         (default "" (signature req)) body = true)
    ∧ parseDingtalkMessage body = Normal (Some m)
    ∧ (dingtalkKeyword cfg ≠ "" →
       JsString.includes (content m) (dingtalkKeyword cfg) = true).

(** A suspended or resumed asynchronous part [p] releases the session
    [id]: whatever the session map holds when it runs, it ends in this turn
    with the entry of [id] deleted and nothing else changed. *)
Definition releases (id : string) (p : io (completion unit)) : Prop :=
  ∀ now m, run now p m = (delete id m, Done (Normal tt)).

(** [p] delivers [text] and then releases the session [id]: with a webhook
    URL configured it posts [text], changes nothing until the post settles,
    and releases [id] however it settles; with none it releases [id] at
    once. *)
Definition delivers_then_releases (cfg : config) (id text : string)
    (p : io (completion unit)) : Prop :=
  ∀ now m,
    if JsString.truthy (dingtalkWebhookUrl cfg)
    then ∃ k, run now p m
              = (m, Blocked (OnPost (dingtalkWebhookUrl cfg) (text_payload text) k))
            ∧ ∀ r, releases id (k r)
    else run now p m = (delete id m, Done (Normal tt)).

(** A suspended asynchronous part that only awaits the post of the
    "please wait" notice: when the post settles it ends, and the session
    map is as it was. *)
Definition notice_only (w : pending (completion unit)) : Prop :=
  ∃ url k, w = OnPost url (text_payload "请稍候，我正在思考...") k
         ∧ ∀ r now m, run now (k r) m = (m, Done (Normal tt)).

(** An event of request [id]: a response is that of [id]. *)
Definition own_event (id : nat) (e : event) : Prop :=
  match e with
  | Response id' _ _ => id' = id
  | _ => True
  end.

(** The acknowledgment: the response [{status: 'ok'}] with status 200. *)
Definition ack_of (e : event) : option nat :=
  match e with
  | Response id 200 (JObj [(k, JStr v)]) =>
      if String.eqb k "status" && String.eqb v "ok" then Some id else None
  | _ => None
  end.

(** A monitor of a trace: every event of an asynchronous part (the start of
    the agent, a post, an unhandled rejection) belongs to a request that was
    acknowledged earlier in the trace; [acked] holds the requests
    acknowledged so far. *)
Fixpoint ack_first (acked : gset nat) (evs : list event) : bool :=
  match evs with
  | [] => true
  | e :: rest =>
      match e with
      | Response _ _ _ =>
          ack_first (match ack_of e with
                     | Some id => {[id]} ∪ acked
                     | None => acked
                     end) rest
      | ExecCall id _ _ | PostCall id _ _ | UnhandledRejection id _ =>
          bool_decide (id ∈ acked) && ack_first acked rest
      end
  end.

Definition acks (evs : list event) : gset nat := list_to_set (omap ack_of evs).

(** What is suspended belongs to acknowledged requests. *)
Definition tasks_acked (srv : server) (s : gset nat) : Prop :=
  ∀ id, is_Some (tasks srv !! id) → id ∈ s.

(** The five outcomes of an agent invocation the specification lists, the
    condition of each on how [execAsync] settled, and the reply of each.
    The primary stream counts as empty when nothing is left of it after
    trimming; the diagnostic stream is tested before trimming. *)
Inductive agent_case : Type :=
  | PrimaryOutput
  | DiagnosticFallback
  | EmptyOutput
  | KilledOnTimeout
  | ProcessFailure.

Definition case_holds (c : agent_case) (r : exec_result) : Prop :=
  match c, r with
  | PrimaryOutput, ExecResolved stdout _ => JsString.trim stdout ≠ ""
  | DiagnosticFallback, ExecResolved stdout stderr =>
      JsString.trim stdout = "" ∧ stderr ≠ ""
  | EmptyOutput, ExecResolved stdout stderr =>
      JsString.trim stdout = "" ∧ stderr = ""
  | KilledOnTimeout, ExecRejected killed _ => killed = true
  | ProcessFailure, ExecRejected killed _ => killed = false
  | _, _ => False
  end.

Definition case_reply (c : agent_case) (r : exec_result) : string :=
  match c, r with
  | PrimaryOutput, ExecResolved stdout _ => JsString.trim stdout
  | DiagnosticFallback, ExecResolved _ stderr => JsString.trim stderr
  | EmptyOutput, _ => "消息已发送，但未收到回复"
  | KilledOnTimeout, _ => "处理超时，请稍后再试"
  | ProcessFailure, ExecRejected _ message => "处理失败: " +:+ message
  | _, _ => ""
  end.

(** The entries [cleanupSessions] deletes, as a fold over the entries
    visited, and whether some visited entry of key [id] is expired. *)
Definition expired (cfg : config) (now : Z) (s : session) : bool :=
  (now - lastActivity s >? Z.of_N (sessionTimeout cfg))%Z.

Definition sweep (cfg : config) (now : Z) (l : list (string * session))
    (m : sessions_map) : sessions_map :=
  foldl (λ acc entry, if expired cfg now entry.2 then delete entry.1 acc else acc)
    m l.

Definition swept (cfg : config) (now : Z) (id : string)
    (l : list (string * session)) : bool :=
  existsb (λ entry, bool_decide (entry.1 = id) && expired cfg now entry.2) l.

(** POSIX shell quoting (XCU 2.2.3), for text without [$] and backquote:
    [sh_dquote_close s] is what follows the double quote that closes a quoted
    string whose text after the opening quote is [s].  A backslash takes the
    next character with it, so that character closes nothing. *)
Fixpoint sh_dquote_close (s : string) : option string :=
  match s with
  | EmptyString => None
  | String c t =>
      if Ascii.eqb c JsString.dquote then Some t
      else if Ascii.eqb c JsString.backslash then
        match t with
        | String _ u => sh_dquote_close u
        | EmptyString => None
        end
      else sh_dquote_close t
  end.

(** What the shell reads after the quote that opens the [--message]
    argument in [agent_command]. *)
Definition quoted_tail (message : string) : string :=
  JsString.replace_dquote message +:+ String JsString.dquote " --timeout 120".

Definition has_backslash (s : string) : bool :=
  existsb (λ c, Ascii.eqb c JsString.backslash) (String.list_ascii_of_string s).

(** The text holds a [$] or a backquote, which start an expansion inside
    double quotes. *)
Definition has_expansion (s : string) : bool :=
  existsb (λ c, Ascii.eqb c "$" || Ascii.eqb c "`")
    (String.list_ascii_of_string s).

(** ** Notions for the properties of the rest of the code *)

(** [v.name] for a value that is neither [undefined] nor [null], and
    [v?.name], as values: reading a property of such a value does not
    throw. *)
Definition field (v : jsval) (name : string) : jsval :=
  match v with
  | JObj fields => lookup_field name fields
  | _ => JUndefined
  end.

Definition opt_field (v : jsval) (name : string) : jsval :=
  if nullish v then JUndefined else field v name.

(** [data.senderStaffId || data.senderId?.id], as a value. *)
Definition sender_of (data : jsval) : jsval :=
  if ToBoolean (field data "senderStaffId") then field data "senderStaffId"
  else opt_field (field data "senderId") "id".

(** The string begins with a character that [p1], [p2] or [p3] recognises
    by its one, two or three bytes. *)
Definition starts_with (p1 : ascii → bool) (p2 : ascii → ascii → bool)
    (p3 : ascii → ascii → ascii → bool) (s : string) : bool :=
  match s with
  | EmptyString => false
  | String a t =>
      p1 a
      || match t with
         | EmptyString => false
         | String b u =>
             p2 a b
             || match u with
                | EmptyString => false
                | String c _ => p3 a b c
                end
         end
  end.

(** The string begins, or ends, with a whitespace character. *)
Definition leading_ws (s : string) : bool :=
  starts_with JsString.ws1 JsString.ws2 JsString.ws3 s.

Definition trailing_ws (s : string) : bool :=
  starts_with JsString.ws1 (λ b a, JsString.ws2 a b)
    (λ c b a, JsString.ws3 a b c) (String.rev s).

Definition has_colon (s : string) : bool :=
  existsb (λ c, Ascii.eqb c ":") (String.list_ascii_of_string s).

(** The configuration with the signing key removed. *)
Definition without_key (cfg : config) : config := {|
  dingtalkSignKey := "";
  moltbotPath := moltbotPath cfg;
  dingtalkWebhookUrl := dingtalkWebhookUrl cfg;
  dingtalkKeyword := dingtalkKeyword cfg;
  sessionTimeout := sessionTimeout cfg
|}.

(** [app.get('/status', ...)]: the number of sessions and what is
    configured. *)
Definition status_route (cfg : config) (srv : server) : action :=
  Respond 200
    (JObj [("status", JStr "ok");
           ("sessions", JNum (Z.of_nat (size (sessions srv))));
           ("config",
            JObj [("hasDingtalkWebhookUrl",
                   JBool (JsString.truthy (dingtalkWebhookUrl cfg)));
                  ("hasSignKey",
                   JBool (JsString.truthy (dingtalkSignKey cfg)))])]).

(** The reply [sendToMoltbot] resolves to when [execAsync] settles as
    [r]. *)
Definition reply_of (cfg : config) (message : string) (chatId : jsval)
    (r : exec_result) : option string :=
  match sendToMoltbot cfg message chatId with
  | AwaitExec _ _ k =>
      match k r with
      | Ret text => Some text
      | _ => None
      end
  | _ => None
  end.

(** The suspended asynchronous part [w] holds the session [sid]: it awaits
    the agent and will then deliver a reply and release [sid], or it awaits
    the post of the reply and will then release [sid]. *)
Definition holds (cfg : config) (sid : string)
    (w : pending (completion unit)) : Prop :=
  match w with
  | OnExec _ _ k => ∀ r, ∃ text, delivers_then_releases cfg sid text (k r)
  | OnPost _ _ k => ∀ r, releases sid (k r)
  end.

(** The asynchronous part of request [id] awaits the agent. *)
Definition awaiting_agent (srv : server) (id : nat) : bool :=
  match tasks srv !! id with
  | Some (OnExec _ _ _) => true
  | _ => false
  end.

(** Every suspended part is the post of a notice or holds a session, and
    the numbers from [next_id] on are unused. *)
Definition well_formed (cfg : config) (srv : server) : Prop :=
  (∀ id w, tasks srv !! id = Some w → notice_only w ∨ ∃ sid, holds cfg sid w)
  ∧ (∀ id, next_id srv ≤ id → tasks srv !! id = None).

(** Every session entry is held by a suspended part. *)
Definition entries_held (cfg : config) (srv : server) : Prop :=
  ∀ sid, is_Some (sessions srv !! sid) →
    ∃ id w, tasks srv !! id = Some w ∧ holds cfg sid w.

(** A session is held by at most one suspended part, and what is held has
    its entry. *)
Definition exclusive (cfg : config) (srv : server) : Prop :=
  (∀ sid id w, tasks srv !! id = Some w → holds cfg sid w →
     is_Some (sessions srv !! sid))
  ∧ (∀ sid id1 id2 w1 w2,
       tasks srv !! id1 = Some w1 → tasks srv !! id2 = Some w2 →
       holds cfg sid w1 → holds cfg sid w2 → id1 = id2).

(** No run of [cleanupSessions] in the run [l] from [srv] removes an
    entry. *)
Fixpoint sweeps_idle (cfg : config) (srv : server) (l : list (Z * input))
    : Prop :=
  match l with
  | [] => True
  | (now, i) :: rest =>
      (i = Timer → sessions (step cfg now srv i).1 = sessions srv)
      ∧ sweeps_idle cfg (step cfg now srv i).1 rest
  end.

(** The requests of a run, in order of arrival: the request numbered
    [next_id] of the state the run starts from comes first. *)
Definition requests (l : list (Z * input)) : list request :=
  omap (λ ti, match ti.2 with
              | Request req => Some req
              | _ => None
              end) l.

(** What a turn of the event loop does to the server, by kind. *)
Inductive turn_kind : Type :=
  | Answered
  | Dropped
  | Noticed
  | Acquired
  | Delivering
  | Released
  | NoticeDone
  | Swept
  | Idle.

Inductive turn (cfg : config) (srv srv' : server)
    : turn_kind → list event → Prop :=
  | turn_answer (status : Z) (body : jsval) :
      sessions srv' = sessions srv →
      tasks srv' = tasks srv →
      next_id srv' = S (next_id srv) →
      turn cfg srv srv' Answered [Response (next_id srv) status body]
  | turn_drop (e : js_error) :
      sessions srv' = sessions srv →
      tasks srv' = tasks srv →
      next_id srv' = S (next_id srv) →
      turn cfg srv srv' Dropped
        [Response (next_id srv) 200 (json_status "ok");
         UnhandledRejection (next_id srv) e]
  | turn_notice (sid url : string) (k : post_result → io (completion unit)) :
      is_Some (sessions srv !! sid) →
      notice_only (OnPost url (text_payload "请稍候，我正在思考...") k) →
      sessions srv' = sessions srv →
      tasks srv'
      = <[next_id srv := OnPost url (text_payload "请稍候，我正在思考...") k]>
          (tasks srv) →
      next_id srv' = S (next_id srv) →
      turn cfg srv srv' Noticed
        [Response (next_id srv) 200 (json_status "ok");
         PostCall (next_id srv) url (text_payload "请稍候，我正在思考...")]
  | turn_notice_unsent (sid : string) :
      is_Some (sessions srv !! sid) →
      sessions srv' = sessions srv →
      tasks srv' = tasks srv →
      next_id srv' = S (next_id srv) →
      turn cfg srv srv' Noticed
        [Response (next_id srv) 200 (json_status "ok")]
  | turn_acquire (sid cmd : string) (s : session)
      (k : exec_result → io (completion unit)) :
      sessions srv !! sid = None →
      holds cfg sid (OnExec cmd 130000 k) →
      sessions srv' = <[sid := s]> (sessions srv) →
      tasks srv' = <[next_id srv := OnExec cmd 130000 k]> (tasks srv) →
      next_id srv' = S (next_id srv) →
      turn cfg srv srv' Acquired
        [Response (next_id srv) 200 (json_status "ok");
         ExecCall (next_id srv) cmd 130000]
  | turn_deliver (id : nat) (sid cmd : string) (timeout : Z)
      (k : exec_result → io (completion unit)) (url : string)
      (payload : jsval) (k' : post_result → io (completion unit)) :
      tasks srv !! id = Some (OnExec cmd timeout k) →
      holds cfg sid (OnExec cmd timeout k) →
      holds cfg sid (OnPost url payload k') →
      sessions srv' = sessions srv →
      tasks srv' = <[id := OnPost url payload k']> (tasks srv) →
      next_id srv' = next_id srv →
      turn cfg srv srv' Delivering [PostCall id url payload]
  | turn_release (id : nat) (sid : string) (w : pending (completion unit)) :
      tasks srv !! id = Some w →
      holds cfg sid w →
      sessions srv' = delete sid (sessions srv) →
      tasks srv' = delete id (tasks srv) →
      next_id srv' = next_id srv →
      turn cfg srv srv' Released []
  | turn_notice_done (id : nat) (w : pending (completion unit)) :
      tasks srv !! id = Some w →
      notice_only w →
      sessions srv' = sessions srv →
      tasks srv' = delete id (tasks srv) →
      next_id srv' = next_id srv →
      turn cfg srv srv' NoticeDone []
  | turn_sweep :
      (∀ id e, sessions srv' !! id = Some e → sessions srv !! id = Some e) →
      tasks srv' = tasks srv →
      next_id srv' = next_id srv →
      turn cfg srv srv' Swept []
  | turn_idle :
      sessions srv' = sessions srv →
      tasks srv' = tasks srv →
      next_id srv' = next_id srv →
      turn cfg srv srv' Idle [].

(** The number of a response, and the events of request [id] that start
    the agent or post to DingTalk. *)
Definition response_id (e : event) : option nat :=
  match e with
  | Response id _ _ => Some id
  | _ => None
  end.

Definition is_request (i : input) : bool :=
  match i with
  | Request _ => true
  | _ => false
  end.

Definition exec_calls (id : nat) (evs : list event) : nat :=
  length (List.filter (λ e, match e with
                            | ExecCall id' _ _ => Nat.eqb id' id
                            | _ => false
                            end) evs).

Definition post_calls (id : nat) (evs : list event) : nat :=
  length (List.filter (λ e, match e with
                            | PostCall id' _ _ => Nat.eqb id' id
                            | _ => false
                            end) evs).

(** What a trace says of each request so far: the agent was started at most
    once for it and at most one message was posted to DingTalk for it,
    nothing yet for the requests to come, and no message for a request whose
    asynchronous part still awaits the agent. *)
Definition counted (srv : server) (evs : list event) : Prop :=
  ∀ id,
    exec_calls id evs ≤ 1
    ∧ post_calls id evs ≤ 1
    ∧ (next_id srv ≤ id → exec_calls id evs = 0 ∧ post_calls id evs = 0)
    ∧ (awaiting_agent srv id = true → post_calls id evs = 0).

(** POSIX shell quoting (XCU 2.2.3), for text without [$] and backquote:
    [sh_dquote_read s] is the value of the quoted string whose text after
    the opening quote is [s], with what follows the closing quote.  Inside
    double quotes a backslash quotes a following [$], backquote, double
    quote or backslash, joins lines with a following line feed, and is an
    ordinary character before anything else. *)
Definition sh_escapable (c : ascii) : bool :=
  Ascii.eqb c "$" || Ascii.eqb c "`" || Ascii.eqb c JsString.dquote
  || Ascii.eqb c JsString.backslash.

Fixpoint sh_dquote_read (s : string) : option (string * string) :=
  match s with
  | EmptyString => None
  | String c t =>
      if Ascii.eqb c JsString.dquote then Some (EmptyString, t)
      else if Ascii.eqb c JsString.backslash then
        match t with
        | String d u =>
            r ← sh_dquote_read u;
            Some (if Ascii.eqb d JsString.newline then r.1
                  else if sh_escapable d then String d r.1
                  else String c (String d r.1), r.2)
        | EmptyString => None
        end
      else r ← sh_dquote_read t; Some (String c r.1, r.2)
  end.

(** ** Sample inputs *)

Module Sample.

(** The payload of the specification's parser example. *)
Definition payload : jsval :=
  JObj [("text", JObj [("content", JStr " hi ")]);
        ("senderStaffId", JStr "u1");
        ("conversationId", JStr "c1");
        ("conversationType", JStr "group")].

(** The configuration with no environment variable set, and with a
    signing key, with a webhook URL. *)
Definition cfg : config := CONFIG ∅.
Definition cfg_key : config := CONFIG {["DINGTALK_SIGN_KEY" := "abc"]}.
Definition cfg_url : config := CONFIG {["DINGTALK_WEBHOOK_URL" := "http://hook"]}.

Definition text_from (user : jsval) (text : string) : jsval :=
  JObj [("text", JObj [("content", JStr text)]);
        ("senderStaffId", user);
        ("conversationId", JStr "c1")].

Definition post (body : jsval) : request :=
  {| signature_timestamp := None; signature := None;
     req_body := JObj [("body", body)] |}.

(** A message from user [u1] in conversation [c1] that names the keyword. *)
Definition hello : request := post (text_from (JStr "u1") "Moltbot hello").

Definition hello_message : message :=
  {| type := "text"; content := "Moltbot hello"; userId := JStr "u1";
     chatId := JStr "c1"; isGroup := false |}.

(** The same message from a sender id that is an object with an own
    [toString] property. *)
Definition odd_sender : jsval := JObj [("toString", JNum 1)].
Definition odd : request := post (text_from odd_sender "Moltbot hello").

Definition odd_message : message :=
  {| type := "text"; content := "Moltbot hello"; userId := odd_sender;
     chatId := JStr "c1"; isGroup := false |}.

(** A message that closes the quote of its argument: the keyword, a
    backslash, a double quote, then a command. *)
Definition breakout : string :=
  "Moltbot" +:+ String JsString.backslash (String JsString.dquote "; id #").

(** The same message with a conversation id that is an object with an own
    [toString] property. *)
Definition odd_chat : request :=
  post (JObj [("text", JObj [("content", JStr "Moltbot hello")]);
              ("senderStaffId", JStr "u1");
              ("conversationId", odd_sender)]).

Definition odd_chat_message : message :=
  {| type := "text"; content := "Moltbot hello"; userId := JStr "u1";
     chatId := odd_sender; isGroup := false |}.

(** A message with double quotes and no backslash. *)
Definition quoted : string :=
  "say " +:+ String JsString.dquote ("hi" +:+ String JsString.dquote " twice").

(** A session map holding one entry, created at time 0 for user [u1] in
    conversation [c1]. *)
Definition registry : sessions_map :=
  {["c1:u1" := {| lastActivity := 0; processing := true |}]}.

End Sample.

(** * Properties *)

(** ** The hash functions agree with their published test vectors *)

Example sha256_abc :
  hex (Sha256.digest (JsString.bytes "abc"))
  = "ba7816bf8f01cfea414140de5dae2223b00361a396177a9cb410ff61f20015ad".
Proof. vm_compute. reflexivity. Qed.

Example sha256_two_blocks :
  hex (Sha256.digest
         (JsString.bytes "abcdbcdecdefdefgefghfghighijhijkijkljklmklmnlmnomnopnopq"))
  = "248d6a61d20638b8e5c026930c3e6039a33ce45964ff2167f6ecedd419db06c1".
Proof. vm_compute. reflexivity. Qed.

Example hmac_rfc4231_case2 :
  hex (Sha256.hmac (JsString.bytes "Jefe")
         (JsString.bytes "what do ya want for nothing?"))
  = "5bdcc146bf60754e6a042426089575c75a003f089d2739839dec58b964ec3843".
Proof. vm_compute. reflexivity. Qed.

Example base64_rfc4648 :
  Base64.encode (JsString.bytes "foobar") = "Zm9vYmFy"
  ∧ Base64.encode (JsString.bytes "fooba") = "Zm9vYmE="
  ∧ Base64.encode (JsString.bytes "foob") = "Zm9vYg==".
Proof. vm_compute. auto. Qed.

(** ** verifySignature *)

Lemma truthy_empty (s : string) : JsString.truthy s = false ↔ s = "".
Proof. destruct s; simpl; split; congruence. Qed.

Lemma truthy_nonempty (s : string) : JsString.truthy s = true ↔ s ≠ "".
Proof. destruct s; simpl; split; congruence. Qed.

(** C6. Without a signing key every timestamp and signature is accepted,
    the empty ones too.  With a key, the signature accepted is the base64
    text of the HMAC-SHA256, keyed by the key, of the timestamp, a line feed
    and the key; every other signature is refused. *)
Theorem verifySignature_spec (cfg : config) (timestamp sign : string) (body : jsval) :
  let key := dingtalkSignKey cfg in
  let expected :=
    Base64.encode
      (Sha256.hmac (JsString.bytes key)
         (JsString.bytes (timestamp +:+ String JsString.newline key))) in
  (key = "" → verifySignature cfg timestamp sign body = true)
  ∧ (key ≠ "" → sign = expected → verifySignature cfg timestamp sign body = true)
  ∧ (key ≠ "" → sign ≠ expected → verifySignature cfg timestamp sign body = false).
Proof.
  intros key expected. unfold verifySignature. fold key. fold expected.
  destruct (JsString.truthy key) eqn:Hk; simpl.
  - apply truthy_nonempty in Hk. repeat split; intros; try congruence.
    + by apply String.eqb_eq.
    + by apply String.eqb_neq.
  - apply truthy_empty in Hk. repeat split; intros; congruence.
Qed.

(** The example of the specification: key [abc], timestamp [1000]. *)
Lemma verifySignature_spec_witness :
  verifySignature Sample.cfg "1000" "" JNull = true
  ∧ verifySignature Sample.cfg_key "1000"
      "MQ+Jnln7AzXqa9wWfAkS/iY1TYgcacvGLmwMCK4WJi0=" JNull = true
  ∧ verifySignature Sample.cfg_key "1000" "" JNull = false.
Proof.
  destruct (verifySignature_spec Sample.cfg "1000" "" JNull) as (Hopen & _ & _).
  destruct (verifySignature_spec Sample.cfg_key "1000"
              "MQ+Jnln7AzXqa9wWfAkS/iY1TYgcacvGLmwMCK4WJi0=" JNull)
    as (_ & Hgood & _).
  destruct (verifySignature_spec Sample.cfg_key "1000" "" JNull)
    as (_ & _ & Hbad).
  split; [|split].
  - apply Hopen. reflexivity.
  - apply Hgood; vm_compute; [discriminate | reflexivity].
  - apply Hbad; vm_compute; discriminate.
Defined.

(** C9. The verdict of [verifySignature] does not depend on the request
    body: the parameter is accepted and never read, so the signature covers
    the timestamp and the key only. *)
Theorem verifySignature_ignores_body (cfg : config) (timestamp sign : string)
    (b1 b2 : jsval) :
  verifySignature cfg timestamp sign b1 = verifySignature cfg timestamp sign b2.
Proof. unfold verifySignature. destruct (JsString.truthy _); reflexivity. Qed.

(** ** parseDingtalkMessage *)

(** A payload that is not an object throws exactly when it has no
    properties to read at all. *)
Lemma parse_primitive (data : jsval) :
  is_object data = false →
  parseDingtalkMessage data
  = if nullish data then Throw TypeError else Normal None.
Proof. destruct data; simpl; intros; try reflexivity; discriminate. Qed.

(** The claim as the specification states it fails: a number is not an
    object, and the parser answers [null] for it. *)
Lemma parse_number_is_null :
  is_object (JNum 5) = false
  ∧ parseDingtalkMessage (JNum 5) = Normal None
  ∧ webhook_dingtalk Sample.cfg (Sample.post (JNum 5))
    = [Respond 200 (json_status "ignored")]
  ∧ ¬ (∀ data, is_object data = false →
         ∃ e, parseDingtalkMessage data = Throw e).
Proof.
  repeat split; try reflexivity.
  intros H. destruct (H (JNum 5) eq_refl) as [e He]. discriminate He.
Qed.

(** C5 (amended).  The example payload is parsed to the message of the
    specification (with [type] set to [text]); the empty object gives
    [null] without an exception.  A payload that is not an object throws a
    [TypeError] when it is [null] or [undefined], which the handler answers
    with status 500; every other payload that is not an object (a boolean,
    a number, a string) gives [null], which the handler answers with
    [ignored]. *)
Theorem parseDingtalkMessage_cases (cfg : config) (data : jsval) :
  parseDingtalkMessage Sample.payload
  = Normal (Some {| type := "text"; content := "hi"; userId := JStr "u1";
                    chatId := JStr "c1"; isGroup := true |})
  ∧ parseDingtalkMessage (JObj []) = Normal None
  ∧ (is_object data = false →
     (nullish data = true →
      parseDingtalkMessage data = Throw TypeError
      ∧ webhook_dingtalk cfg (Sample.post data)
        = [Respond 500 (json_error "内部错误")])
     ∧ (nullish data = false →
        parseDingtalkMessage data = Normal None
        ∧ webhook_dingtalk cfg (Sample.post data)
          = [Respond 200 (json_status "ignored")])).
Proof.
  split; [reflexivity|]. split; [reflexivity|].
  intros Hobj. pose proof (parse_primitive data Hobj) as Hparse.
  unfold webhook_dingtalk, webhook_try, Sample.post. simpl.
  rewrite Hparse.
  split; intros Hn; rewrite Hn; split; reflexivity.
Qed.

Lemma parseDingtalkMessage_cases_witness :
  parseDingtalkMessage JNull = Throw TypeError
  ∧ webhook_dingtalk Sample.cfg (Sample.post JNull)
    = [Respond 500 (json_error "内部错误")]
  ∧ parseDingtalkMessage (JStr "hello") = Normal None
  ∧ webhook_dingtalk Sample.cfg (Sample.post (JStr "hello"))
    = [Respond 200 (json_status "ignored")].
Proof.
  destruct (parseDingtalkMessage_cases Sample.cfg JNull) as (_ & _ & Hnull).
  destruct (parseDingtalkMessage_cases Sample.cfg (JStr "hello"))
    as (_ & _ & Hstr).
  destruct (Hnull eq_refl) as [Hn _]. destruct (Hstr eq_refl) as [_ Hs].
  destruct (Hn eq_refl). destruct (Hs eq_refl). auto.
Defined.

(** ** sendToMoltbot *)

Lemma case_holds_unique (r : exec_result) (c c' : agent_case) :
  case_holds c r → case_holds c' r → c = c'.
Proof.
  destruct r as [out err | killed msg], c, c'; simpl;
    try tauto; try congruence; intuition congruence.
Qed.

Lemma case_holds_exists (r : exec_result) : ∃ c, case_holds c r.
Proof.
  destruct r as [out err | [] msg].
  - destruct (decide (JsString.trim out = "")) as [He | Hne].
    + destruct (decide (err = "")) as [Hs | Hs].
      * exists EmptyOutput. by split.
      * exists DiagnosticFallback. by split.
    + by exists PrimaryOutput.
  - by exists KilledOnTimeout.
  - by exists ProcessFailure.
Qed.

(** C4. [sendToMoltbot] awaits one [execAsync] and maps how it settles to
    the reply: exactly one of the five cases holds, and the reply is that
    case's. *)
Theorem sendToMoltbot_reply (cfg : config) (message : string) (chatId : jsval) :
  ∃ k, sendToMoltbot cfg message chatId
       = AwaitExec (agent_command cfg message) 130000 k
     ∧ ∀ r, ∃ c, case_holds c r
               ∧ (∀ c', case_holds c' r → c' = c)
               ∧ k r = Ret (case_reply c r).
Proof.
  eexists. split; [reflexivity|]. intros r.
  destruct (case_holds_exists r) as [c Hc]. exists c.
  split; [exact Hc|]. split; [intros c' Hc'; exact (case_holds_unique r c' c Hc' Hc)|].
  destruct r as [out err | killed msg], c; simpl in Hc; try contradiction; simpl.
  - apply truthy_nonempty in Hc. rewrite Hc. reflexivity.
  - destruct Hc as [Ho He]. rewrite Ho. apply truthy_nonempty in He.
    rewrite He. reflexivity.
  - destruct Hc as [Ho He]. rewrite Ho, He. reflexivity.
  - rewrite Hc. reflexivity.
  - rewrite Hc. reflexivity.
Qed.

(** ** The agent command line *)

Lemma append_cons (c : ascii) (s t : string) :
  String c s +:+ t = String c (s +:+ t).
Proof. reflexivity. Qed.

(** X4.  For a message without a backslash (and without [$] and backquote,
    which [sh_dquote_close] does not read) the escaping holds: the quote
    that closes the argument is the one the template wrote. *)
Theorem escaping_holds_without_backslash (message rest : string) :
  has_backslash message = false →
  has_expansion message = false →
  sh_dquote_close
    (JsString.replace_dquote message +:+ String JsString.dquote rest)
  = Some rest.
Proof.
  intros Hno _. induction message as [|c t IH].
  - reflexivity.
  - unfold has_backslash in Hno. simpl in Hno.
    apply orb_false_iff in Hno as [Hc Ht]. specialize (IH Ht).
    simpl. destruct (Ascii.eqb c JsString.dquote) eqn:Hq.
    + rewrite !append_cons. simpl. exact IH.
    + rewrite append_cons. simpl. rewrite Hq, Hc. exact IH.
Qed.

Lemma escaping_holds_without_backslash_witness :
  sh_dquote_close (quoted_tail Sample.quoted) = Some " --timeout 120".
Proof.
  apply (escaping_holds_without_backslash Sample.quoted " --timeout 120");
    reflexivity.
Defined.

(** C7.  The claim fails on the code: only double quotes are escaped.  In
    the message [Sample.breakout] a backslash precedes a double quote; the
    backslash the escaping adds is taken by the one of the message, the
    quote closes the argument, and the rest of the message is read as shell
    text.  The message reaches the shell through the handler. *)
Theorem escaping_breaks_out :
  agent_command Sample.cfg Sample.breakout
  = "moltbot agent --message "
    +:+ String JsString.dquote (quoted_tail Sample.breakout)
  ∧ has_backslash Sample.breakout = true
  ∧ sh_dquote_close (quoted_tail Sample.breakout)
    = Some ("; id #" +:+ String JsString.dquote " --timeout 120")
  ∧ sh_dquote_close (quoted_tail Sample.breakout) ≠ Some " --timeout 120"
  ∧ (step Sample.cfg 0 initial
       (Request (Sample.post (Sample.text_from (JStr "u1") Sample.breakout)))).2
    = [Response 0 200 (json_status "ok");
       ExecCall 0 (agent_command Sample.cfg Sample.breakout) 130000].
Proof. vm_compute. repeat split; discriminate. Qed.

(** ** cleanupSessions *)

(** Running the loop of [cleanupSessions] over the entries [l] is the fold
    [sweep], and it ends without awaiting anything. *)
Lemma run_sweep_loop (cfg : config) (now : Z) (l : list (string * session))
    (m : sessions_map) :
  run now
    (for_of l (λ entry,
       if (now - lastActivity entry.2 >? Z.of_N (sessionTimeout cfg))%Z
       then sessions_delete entry.1 else Ret tt)) m
  = (sweep cfg now l m, Done tt).
Proof.
  revert m. induction l as [|entry l IH]; intros m; [reflexivity|].
  unfold sweep. simpl. unfold expired.
  destruct (now - lastActivity entry.2 >? Z.of_N (sessionTimeout cfg))%Z;
    simpl; apply IH.
Qed.

Lemma run_cleanupSessions (cfg : config) (now : Z) (m : sessions_map) :
  run now (cleanupSessions cfg) m = (sweep cfg now (map_to_list m) m, Done tt).
Proof. unfold cleanupSessions. simpl. apply run_sweep_loop. Qed.

(** The fold deletes the keys of the expired entries it visits, whatever
    the order of the visit, and touches nothing else. *)
Lemma lookup_sweep (cfg : config) (now : Z) (l : list (string * session))
    (m : sessions_map) (id : string) :
  sweep cfg now l m !! id = if swept cfg now id l then None else m !! id.
Proof.
  revert m. induction l as [|[k s] l IH]; intros m; [reflexivity|].
  unfold sweep in *. simpl. rewrite IH. clear IH.
  destruct (swept cfg now id l); [by rewrite orb_true_r|].
  rewrite orb_false_r.
  destruct (expired cfg now s); simpl.
  - case_bool_decide as Hk; simpl.
    + subst. apply lookup_delete_eq.
    + by apply lookup_delete_ne.
  - by rewrite andb_false_r.
Qed.

Lemma swept_map_to_list (cfg : config) (now : Z) (m : sessions_map)
    (id : string) (e : session) :
  m !! id = Some e →
  swept cfg now id (map_to_list m) = expired cfg now e.
Proof.
  intros Hid. unfold swept.
  destruct (expired cfg now e) eqn:He.
  - apply existsb_exists. exists (id, e). split.
    + apply list_elem_of_In, elem_of_map_to_list, Hid.
    + simpl. rewrite He. by rewrite bool_decide_eq_true_2.
  - apply not_true_is_false. intros Hex.
    apply existsb_exists in Hex as ([k s] & Hin & Hks). simpl in Hks.
    apply andb_true_iff in Hks as [Hk Hs].
    apply bool_decide_eq_true_1 in Hk. subst k.
    apply list_elem_of_In, elem_of_map_to_list in Hin.
    congruence.
Qed.

(** C3. [cleanupSessions], run at time [now], removes an entry exactly
    when [now] minus its [lastActivity] is strictly greater than the
    timeout; an entry it keeps is unchanged, and an entry created at [now]
    is kept. *)
Theorem cleanupSessions_removes_iff_expired (cfg : config) (now : Z)
    (m : sessions_map) (id : string) (e : session) :
  m !! id = Some e →
  let m' := (run now (cleanupSessions cfg) m).1 in
  (m' !! id = None ↔ (now - lastActivity e > Z.of_N (sessionTimeout cfg))%Z)
  ∧ (m' !! id = None ∨ m' !! id = Some e)
  ∧ (lastActivity e = now → m' !! id = Some e).
Proof.
  intros Hid m'. subst m'. rewrite run_cleanupSessions. simpl.
  rewrite lookup_sweep, (swept_map_to_list cfg now m id e Hid), Hid.
  unfold expired.
  destruct (Z.gtb_spec (now - lastActivity e) (Z.of_N (sessionTimeout cfg)))
    as [Hgt | Hle].
  - split; [split; [lia | reflexivity]|]. split; [by left|]. intros Hnow. lia.
  - split; [split; [discriminate | lia]|]. split; [by right|]. reflexivity.
Qed.

Lemma cleanupSessions_removes_iff_expired_witness :
  (run 300001 (cleanupSessions Sample.cfg) Sample.registry).1 !! "c1:u1" = None
  ∧ (run 300000 (cleanupSessions Sample.cfg) Sample.registry).1 !! "c1:u1"
    = Some {| lastActivity := 0; processing := true |}.
Proof.
  assert (Sample.registry !! "c1:u1"
          = Some {| lastActivity := 0; processing := true |}) as Hin
    by reflexivity.
  destruct (cleanupSessions_removes_iff_expired Sample.cfg 300001
              Sample.registry "c1:u1" _ Hin) as ([_ Hgone] & _ & _).
  destruct (cleanupSessions_removes_iff_expired Sample.cfg 300000
              Sample.registry "c1:u1" _ Hin) as ([Hkeep _] & [Hn | Hs] & _).
  - split; [apply Hgone; reflexivity|].
    apply Hkeep in Hn. vm_compute in Hn. discriminate Hn.
  - split; [apply Hgone; reflexivity | exact Hs].
Defined.

(** [cleanupSessions] adds no entry, and the order in which the entries are
    visited does not matter ([Map] iterates in insertion order). *)
Lemma cleanupSessions_adds_nothing (cfg : config) (now : Z) (m : sessions_map)
    (id : string) :
  m !! id = None → (run now (cleanupSessions cfg) m).1 !! id = None.
Proof.
  intros Hid. rewrite run_cleanupSessions. simpl. rewrite lookup_sweep, Hid.
  by destruct (swept cfg now id (map_to_list m)).
Qed.

Lemma sweep_order_irrelevant (cfg : config) (now : Z)
    (l l' : list (string * session)) (m : sessions_map) :
  l ≡ₚ l' → sweep cfg now l m = sweep cfg now l' m.
Proof.
  intros Hperm. apply map_eq. intros id. rewrite !lookup_sweep.
  assert (swept cfg now id l = swept cfg now id l') as ->; [|reflexivity].
  unfold swept. apply eq_true_iff_eq. rewrite !existsb_exists.
  split; intros (x & Hin & Hx); exists x; (split; [|exact Hx]).
  - apply list_elem_of_In. rewrite <- Hperm. by apply list_elem_of_In.
  - apply list_elem_of_In. rewrite Hperm. by apply list_elem_of_In.
Qed.

(** ** The asynchronous part of the handler *)

(** The body of the [try] from the delivery on, with its [catch] and
    [finally]: the reply is posted and the session deleted. *)
Lemma deliver_releases (cfg : config) (sid text : string) :
  delivers_then_releases cfg sid text
    (try_catch_finally
       (_ ← sendToDingtalk (dingtalkWebhookUrl cfg) text; Ret (Normal tt))
       (λ error,
          _ ← sendToDingtalk (dingtalkWebhookUrl cfg) "抱歉，处理消息时出错";
          Ret (Normal tt))
       (sessions_delete sid)).
Proof.
  intros now m. unfold try_catch_finally, sendToDingtalk.
  destruct (JsString.truthy (dingtalkWebhookUrl cfg)); simpl; [|reflexivity].
  eexists. split; [reflexivity|].
  intros [|msg] now' m'; reflexivity.
Qed.

Lemma run_process_message_free (cfg : config) (now : Z) (m : sessions_map)
    (msg : message) (sid : string) :
  getSessionId (chatId msg) (userId msg) = Normal sid →
  m !! sid = None →
  ∃ k, run now (process_message cfg msg) m
       = (<[sid := {| lastActivity := now; processing := true |}]> m,
          Blocked (OnExec (agent_command cfg (content msg)) 130000 k))
     ∧ ∀ r, ∃ c, case_holds c r
               ∧ delivers_then_releases cfg sid (case_reply c r) (k r).
Proof.
  intros Hsid Hfree. unfold process_message. rewrite Hsid. simpl.
  rewrite Hfree. rewrite bool_decide_eq_false_2 by (intros [? ?]; discriminate).
  simpl.
  eexists. split; [reflexivity|].
  intros r. pose proof (deliver_releases cfg sid) as Htail.
  unfold try_catch_finally in Htail. simpl in Htail.
  destruct r as [out err | [] emsg]; simpl.
  - destruct (JsString.truthy (JsString.trim out)) eqn:Hout; simpl.
    + exists PrimaryOutput. split; [by apply truthy_nonempty|]. apply Htail.
    + destruct (JsString.truthy err) eqn:Herr; simpl.
      * exists DiagnosticFallback.
        split; [split; [by apply truthy_empty | by apply truthy_nonempty]|].
        apply Htail.
      * exists EmptyOutput.
        split; [split; by apply truthy_empty|]. apply Htail.
  - exists KilledOnTimeout. split; [reflexivity|]. apply Htail.
  - exists ProcessFailure. split; [reflexivity|]. apply Htail.
Qed.

Lemma run_process_message_busy (cfg : config) (now : Z) (m : sessions_map)
    (msg : message) (sid : string) :
  getSessionId (chatId msg) (userId msg) = Normal sid →
  is_Some (m !! sid) →
  if JsString.truthy (dingtalkWebhookUrl cfg)
  then ∃ k, run now (process_message cfg msg) m
            = (m, Blocked (OnPost (dingtalkWebhookUrl cfg)
                             (text_payload "请稍候，我正在思考...") k))
          ∧ ∀ r now' m', run now' (k r) m' = (m', Done (Normal tt))
  else run now (process_message cfg msg) m = (m, Done (Normal tt)).
Proof.
  intros Hsid Hbusy. unfold process_message. rewrite Hsid. simpl.
  rewrite bool_decide_eq_true_2 by exact Hbusy. simpl.
  unfold sendToDingtalk.
  destruct (JsString.truthy (dingtalkWebhookUrl cfg)); simpl; [|reflexivity].
  eexists. split; [reflexivity|].
  intros [|emsg] now' m'; reflexivity.
Qed.

(** ** Requests *)

Lemma step_accepted (cfg : config) (now : Z) (srv : server) (req : request)
    (m : message) :
  accepted cfg req m →
  step cfg now srv (Request req)
  = let r := settle (next_id srv)
               (run now (process_message cfg m) (sessions srv))
               {| sessions := sessions srv; tasks := tasks srv;
                  next_id := S (next_id srv) |} in
    (r.1, Response (next_id srv) 200 (json_status "ok") :: r.2).
Proof. intros Hacc. unfold step. rewrite Hacc. reflexivity. Qed.

(** A request for a key that has an entry: the duplicate branch. *)
Lemma request_busy (cfg : config) (now : Z) (srv : server) (req : request)
    (m : message) (sid : string) :
  accepted cfg req m →
  getSessionId (chatId m) (userId m) = Normal sid →
  is_Some (sessions srv !! sid) →
  let id := next_id srv in
  let r := step cfg now srv (Request req) in
  sessions r.1 = sessions srv
  ∧ r.2 = Response id 200 (json_status "ok")
          :: (if JsString.truthy (dingtalkWebhookUrl cfg)
              then [PostCall id (dingtalkWebhookUrl cfg)
                      (text_payload "请稍候，我正在思考...")]
              else [])
  ∧ (∀ w, tasks r.1 !! id = Some w → notice_only w)
  ∧ (∀ id', id' ≠ id → tasks r.1 !! id' = tasks srv !! id').
Proof.
  intros Hacc Hsid Hbusy id r. subst r id.
  rewrite (step_accepted cfg now srv req m Hacc).
  pose proof (run_process_message_busy cfg now (sessions srv) m sid Hsid Hbusy)
    as Hrun.
  destruct (JsString.truthy (dingtalkWebhookUrl cfg)).
  - destruct Hrun as (k & Hrun & Hk). rewrite Hrun. unfold settle. simpl.
    split; [reflexivity|]. split; [reflexivity|]. split.
    + intros w Hw. rewrite lookup_insert_eq in Hw. inversion Hw; subst w.
      exists (dingtalkWebhookUrl cfg), k. split; [reflexivity | exact Hk].
    + intros id' Hne. by rewrite lookup_insert_ne.
  - rewrite Hrun. unfold settle. simpl.
    split; [reflexivity|]. split; [reflexivity|]. split.
    + intros w Hw. rewrite lookup_delete_eq in Hw. discriminate.
    + intros id' Hne. by rewrite lookup_delete_ne.
Qed.

(** A request for a key that has no entry: the session is created and the
    agent started. *)
Lemma request_free (cfg : config) (now : Z) (srv : server) (req : request)
    (m : message) (sid : string) :
  accepted cfg req m →
  getSessionId (chatId m) (userId m) = Normal sid →
  sessions srv !! sid = None →
  let id := next_id srv in
  let r := step cfg now srv (Request req) in
  sessions r.1 = <[sid := {| lastActivity := now; processing := true |}]> (sessions srv)
  ∧ r.2 = [Response id 200 (json_status "ok");
           ExecCall id (agent_command cfg (content m)) 130000]
  ∧ ∃ k, tasks r.1 !! id
         = Some (OnExec (agent_command cfg (content m)) 130000 k)
       ∧ ∀ res, ∃ c, case_holds c res
                   ∧ delivers_then_releases cfg sid (case_reply c res) (k res).
Proof.
  intros Hacc Hsid Hfree id r. subst r id.
  rewrite (step_accepted cfg now srv req m Hacc).
  destruct (run_process_message_free cfg now (sessions srv) m sid Hsid Hfree)
    as (k & Hrun & Hk).
  rewrite Hrun. unfold settle. simpl.
  split; [reflexivity|]. split; [reflexivity|].
  exists k. split; [apply lookup_insert_eq | exact Hk].
Qed.

(** The sample request is accepted. *)
Lemma hello_accepted (cfg : config) :
  dingtalkKeyword cfg = "Moltbot" →
  accepted cfg Sample.hello Sample.hello_message.
Proof.
  intros Hkw. unfold accepted, webhook_dingtalk, webhook_try. simpl.
  rewrite Hkw. reflexivity.
Qed.

Lemma steps_cons (cfg : config) (srv : server) (now : Z) (i : input)
    (l : list (Z * input)) :
  steps cfg srv ((now, i) :: l)
  = ((steps cfg (step cfg now srv i).1 l).1,
     (step cfg now srv i).2 ++ (steps cfg (step cfg now srv i).1 l).2).
Proof. reflexivity. Qed.

(** C10.  Messages that arrive for a key whose session entry exists leave
    the session map as it was, however many they are: the entry is still
    there with its [lastActivity], no agent is started, [cleanupSessions]
    decides as it would have without them, and all they leave suspended is
    the post of the notice, whose completion changes nothing either. *)
Theorem duplicate_leaves_registry (cfg : config) (srv : server)
    (arrivals : list (Z * request)) (sid : string) (e : session) :
  Forall (λ a, ∃ m, accepted cfg a.2 m
                    ∧ getSessionId (chatId m) (userId m) = Normal sid) arrivals →
  sessions srv !! sid = Some e →
  let r := steps cfg srv (prod_map id Request <$> arrivals) in
  sessions r.1 = sessions srv
  ∧ sessions r.1 !! sid = Some e
  ∧ invocations r.2 = 0
  ∧ (∀ now, run now (cleanupSessions cfg) (sessions r.1)
            = run now (cleanupSessions cfg) (sessions srv))
  ∧ (∀ id w, tasks r.1 !! id = Some w →
       tasks srv !! id = Some w ∨ notice_only w).
Proof.
  intros Hall Hsid r.
  assert (sessions r.1 = sessions srv ∧ invocations r.2 = 0
          ∧ ∀ id w, tasks r.1 !! id = Some w →
              tasks srv !! id = Some w ∨ notice_only w)
    as (Hsame & Hinv & Htasks).
  { subst r. revert srv Hsid.
    induction Hall as [|[now req] l (m & Hacc & Hm) _ IH]; intros srv Hsid.
    - split; [reflexivity|]. split; [reflexivity|]. intros id w Hw. by left.
    - change (prod_map id Request <$> (now, req) :: l)
        with ((now, Request req) :: (prod_map id Request <$> l)).
      rewrite steps_cons. cbn [fst snd].
      destruct (request_busy cfg now srv req m sid Hacc Hm
                  (mk_is_Some _ _ Hsid)) as (Hs & Hev & Hnew & Hold).
      destruct (IH (step cfg now srv (Request req)).1) as (IHs & IHi & IHt).
      { by rewrite Hs. }
      split; [by rewrite IHs|]. split.
      + unfold invocations in *. rewrite filter_app, length_app, IHi, Hev.
        destruct (JsString.truthy (dingtalkWebhookUrl cfg)); reflexivity.
      + intros id w Hw. destruct (IHt id w Hw) as [Hstep | Hnotice];
          [|by right].
        destruct (decide (id = next_id srv)) as [-> | Hne].
        * right. by apply Hnew.
        * left. by rewrite <- (Hold id Hne). }
  rewrite Hsame. auto.
Qed.

Lemma duplicate_leaves_registry_witness :
  sessions
    (steps Sample.cfg
       {| sessions := Sample.registry; tasks := ∅; next_id := 1 |}
       [(100000%Z, Request Sample.hello); (200000%Z, Request Sample.hello)]).1
  !! "c1:u1" = Some {| lastActivity := 0; processing := true |}.
Proof.
  assert (∃ m, accepted Sample.cfg Sample.hello m
               ∧ getSessionId (chatId m) (userId m) = Normal "c1:u1") as Hdup.
  { exists Sample.hello_message.
    split; [apply hello_accepted|]; reflexivity. }
  destruct (duplicate_leaves_registry Sample.cfg
              {| sessions := Sample.registry; tasks := ∅; next_id := 1 |}
              [(100000%Z, Sample.hello); (200000%Z, Sample.hello)]
              "c1:u1" {| lastActivity := 0; processing := true |})
    as (_ & Hentry & _).
  - repeat constructor; exact Hdup.
  - reflexivity.
  - exact Hentry.
Defined.

Lemma invocations_busy (cfg : config) (id : nat) :
  invocations
    (Response id 200 (json_status "ok")
     :: (if JsString.truthy (dingtalkWebhookUrl cfg)
         then [PostCall id (dingtalkWebhookUrl cfg)
                 (text_payload "请稍候，我正在思考...")]
         else [])) = 0.
Proof. destruct (JsString.truthy _); reflexivity. Qed.

(** The claim as the specification states it fails.  With the timer firing
    between them, two attempts for one key both start the agent although
    nothing was released: the first asynchronous part is still suspended.
    And of two attempts made while the key is held, none starts it. *)
Lemma two_attempts_not_exactly_one :
  (let r := steps Sample.cfg initial
              [(0%Z, Request Sample.hello); (300001%Z, Timer);
               (300002%Z, Request Sample.hello)] in
   invocations r.2 = 2 ∧ suspended r.1 0 = true)
  ∧ (let held := (step Sample.cfg 0 initial (Request Sample.hello)).1 in
     invocations
       (steps Sample.cfg held
          [(1%Z, Request Sample.hello); (2%Z, Request Sample.hello)]).2 = 0).
Proof. vm_compute. auto. Qed.

(** C1 (amended).  A session map holds at most one entry per key.  While
    an entry exists for the key of an accepted message, the handler
    acknowledges, starts no agent and only sends the notice, and the map is
    unchanged.  Of two attempts for one key between which the entry of the
    key is not touched (no release, no sweep), at most one starts the agent,
    and exactly one, the first, when the key had no entry before it. *)
Theorem one_dispatch_per_session (cfg : config) (srv srv' : server)
    (now1 now2 : Z) (req1 req2 : request) (m1 m2 : message) (sid : string) :
  accepted cfg req1 m1 →
  accepted cfg req2 m2 →
  getSessionId (chatId m1) (userId m1) = Normal sid →
  getSessionId (chatId m2) (userId m2) = Normal sid →
  let r1 := step cfg now1 srv (Request req1) in
  let r2 := step cfg now2 srv' (Request req2) in
  (∀ s : server, NoDup (map_to_list (sessions s)).*1)
  ∧ (is_Some (sessions srv' !! sid) →
     sessions r2.1 = sessions srv'
     ∧ r2.2 = Response (next_id srv') 200 (json_status "ok")
              :: (if JsString.truthy (dingtalkWebhookUrl cfg)
                  then [PostCall (next_id srv') (dingtalkWebhookUrl cfg)
                          (text_payload "请稍候，我正在思考...")]
                  else []))
  ∧ (sessions srv' !! sid = sessions r1.1 !! sid →
     invocations r1.2 + invocations r2.2 ≤ 1
     ∧ (sessions srv !! sid = None →
        invocations r1.2 = 1 ∧ invocations r2.2 = 0)).
Proof.
  intros Hacc1 Hacc2 Hsid1 Hsid2 r1 r2.
  split; [intros s; apply NoDup_fst_map_to_list|].
  assert (is_Some (sessions srv' !! sid) →
          sessions r2.1 = sessions srv'
          ∧ r2.2 = Response (next_id srv') 200 (json_status "ok")
                   :: (if JsString.truthy (dingtalkWebhookUrl cfg)
                       then [PostCall (next_id srv') (dingtalkWebhookUrl cfg)
                               (text_payload "请稍候，我正在思考...")]
                       else [])) as Hheld.
  { intros Hbusy.
    destruct (request_busy cfg now2 srv' req2 m2 sid Hacc2 Hsid2 Hbusy)
      as (Hs2 & Hev2 & _).
    auto. }
  split; [exact Hheld|].
  intros Hsame.
  destruct (sessions srv !! sid) as [e|] eqn:He.
  - destruct (request_busy cfg now1 srv req1 m1 sid Hacc1 Hsid1
                (mk_is_Some _ _ He)) as (Hs1 & Hev1 & _).
    fold r1 in Hs1, Hev1.
    destruct Hheld as [_ Hev2]; [by rewrite Hsame, Hs1, He|].
    rewrite Hev1, Hev2, !invocations_busy.
    split; [lia | intros; discriminate].
  - destruct (request_free cfg now1 srv req1 m1 sid Hacc1 Hsid1 He)
      as (Hs1 & Hev1 & _).
    fold r1 in Hs1, Hev1.
    destruct Hheld as [_ Hev2].
    { rewrite Hsame, Hs1, lookup_insert_eq. eauto. }
    rewrite Hev1, Hev2, invocations_busy.
    split; [simpl; lia | intros; split; reflexivity].
Qed.

Lemma one_dispatch_per_session_witness :
  invocations (step Sample.cfg 0 initial (Request Sample.hello)).2 = 1
  ∧ invocations
      (step Sample.cfg 1 (step Sample.cfg 0 initial (Request Sample.hello)).1
         (Request Sample.hello)).2 = 0.
Proof.
  assert (accepted Sample.cfg Sample.hello Sample.hello_message) as Hacc
    by (apply hello_accepted; reflexivity).
  assert (getSessionId (chatId Sample.hello_message)
            (userId Sample.hello_message) = Normal "c1:u1") as Hsid
    by reflexivity.
  destruct (one_dispatch_per_session Sample.cfg initial
              (step Sample.cfg 0 initial (Request Sample.hello)).1 0 1
              Sample.hello Sample.hello Sample.hello_message
              Sample.hello_message "c1:u1" Hacc Hacc Hsid Hsid)
    as (_ & _ & Hpair).
  destruct (Hpair eq_refl) as [_ Hfree].
  apply Hfree. reflexivity.
Defined.

(** ** Release *)

(** The [catch] and [finally] of the asynchronous part, after a body that
    completed in any way: after a normal completion the entry is deleted;
    after an exception the apology is delivered and the entry deleted. *)
Lemma finally_releases (cfg : config) (sid : string) (c : completion unit) :
  let p := try_catch_finally (Ret c)
             (λ error,
                _ ← sendToDingtalk (dingtalkWebhookUrl cfg) "抱歉，处理消息时出错";
                Ret (Normal tt))
             (sessions_delete sid) in
  match c with
  | Normal _ => releases sid p
  | Throw _ => delivers_then_releases cfg sid "抱歉，处理消息时出错" p
  end.
Proof.
  destruct c as [[]|e]; simpl.
  - intros now m. reflexivity.
  - intros now m. unfold try_catch_finally, sendToDingtalk.
    destruct (JsString.truthy (dingtalkWebhookUrl cfg)); simpl; [|reflexivity].
    eexists. split; [reflexivity|]. intros [|msg] now' m'; reflexivity.
Qed.

(** C2.  When a message acquires the session of its key, the asynchronous
    part left suspended awaits the agent, and however the agent settles
    (output, timeout, failure) it delivers the reply and then deletes the
    entry, however the delivery settles; the deletion does not depend on
    what the session map holds by then.  The [finally] deletes the entry
    after a body that threw as well.  After a deletion the next message for
    the key acquires again. *)
Theorem release_is_unconditional (cfg : config) (now : Z) (srv : server)
    (req : request) (m : message) (sid : string) :
  accepted cfg req m →
  getSessionId (chatId m) (userId m) = Normal sid →
  sessions srv !! sid = None →
  let r := step cfg now srv (Request req) in
  (∃ k, tasks r.1 !! next_id srv
        = Some (OnExec (agent_command cfg (content m)) 130000 k)
      ∧ ∀ res, ∃ c, case_holds c res
                  ∧ delivers_then_releases cfg sid (case_reply c res) (k res))
  ∧ (∀ e, delivers_then_releases cfg sid "抱歉，处理消息时出错"
            (try_catch_finally (Ret (Throw e))
               (λ error,
                  _ ← sendToDingtalk (dingtalkWebhookUrl cfg)
                        "抱歉，处理消息时出错";
                  Ret (Normal tt))
               (sessions_delete sid)))
  ∧ (∀ srv' now' m0 req' m',
       accepted cfg req' m' →
       getSessionId (chatId m') (userId m') = Normal sid →
       sessions srv' = delete sid m0 →
       invocations (step cfg now' srv' (Request req')).2 = 1
       ∧ is_Some (sessions (step cfg now' srv' (Request req')).1 !! sid)).
Proof.
  intros Hacc Hsid Hfree r. split; [|split].
  - destruct (request_free cfg now srv req m sid Hacc Hsid Hfree)
      as (_ & _ & Hk). exact Hk.
  - intros e. exact (finally_releases cfg sid (Throw e)).
  - intros srv' now' m0 req' m' Hacc' Hsid' Hdel.
    destruct (request_free cfg now' srv' req' m' sid Hacc' Hsid')
      as (Hs & Hev & _).
    + rewrite Hdel. apply lookup_delete_eq.
    + rewrite Hev, Hs, lookup_insert_eq. split; [reflexivity | eauto].
Qed.

Lemma step_exec_settled (cfg : config) (now : Z) (srv : server) (id : nat)
    (cmd : string) (timeout : Z) (k : exec_result → io (completion unit))
    (res : exec_result) :
  tasks srv !! id = Some (OnExec cmd timeout k) →
  step cfg now srv (ExecSettled id res)
  = settle id (run now (k res) (sessions srv)) srv.
Proof. intros Hk. unfold step. by rewrite Hk. Qed.

Lemma step_post_settled (cfg : config) (now : Z) (srv : server) (id : nat)
    (url : string) (payload : jsval) (k : post_result → io (completion unit))
    (pr : post_result) :
  tasks srv !! id = Some (OnPost url payload k) →
  step cfg now srv (PostSettled id pr)
  = settle id (run now (k pr) (sessions srv)) srv.
Proof. intros Hk. unfold step. by rewrite Hk. Qed.

(** X2.  The acquired branch run to its end with nothing in between: the
    agent settles, then the post of the reply; the session map is as it was
    before the request, nothing is left suspended for it, and the agent was
    started once. *)
Theorem acquired_branch_ends_released (cfg : config) (now1 now2 now3 : Z)
    (srv : server) (req : request) (m : message) (sid : string)
    (res : exec_result) (pr : post_result) :
  accepted cfg req m →
  getSessionId (chatId m) (userId m) = Normal sid →
  sessions srv !! sid = None →
  let id := next_id srv in
  let r := steps cfg srv
             [(now1, Request req); (now2, ExecSettled id res);
              (now3, PostSettled id pr)] in
  sessions r.1 = sessions srv ∧ tasks r.1 !! id = None ∧ invocations r.2 = 1.
Proof.
  intros Hacc Hsid Hfree id r. subst r.
  destruct (request_free cfg now1 srv req m sid Hacc Hsid Hfree)
    as (Hs & Hev & k & Hk & Hrel).
  fold id in Hk, Hev.
  rewrite !steps_cons. cbn [fst snd steps]. rewrite app_nil_r, Hev.
  set (s1 := (step cfg now1 srv (Request req)).1) in *.
  destruct (Hrel res) as (c & _ & Hdeliver).
  specialize (Hdeliver now2 (sessions s1)).
  rewrite (step_exec_settled cfg now2 s1 id _ _ k res Hk).
  assert (delete sid (sessions s1) = sessions srv) as Hback.
  { rewrite Hs. by apply delete_insert_id. }
  destruct (JsString.truthy (dingtalkWebhookUrl cfg)).
  - destruct Hdeliver as (k' & Hrun & Hk'). rewrite Hrun.
    unfold step, settle. cbn [fst snd sessions tasks next_id].
    rewrite lookup_insert_eq. cbn [fst snd sessions tasks next_id].
    rewrite (Hk' pr now3 (sessions s1)). cbn [fst snd sessions tasks next_id].
    rewrite Hback, lookup_delete_eq. auto.
  - rewrite Hdeliver.
    unfold step, settle. cbn [fst snd sessions tasks next_id].
    rewrite lookup_delete_eq. cbn [fst snd sessions tasks next_id].
    rewrite Hback, lookup_delete_eq. auto.
Qed.

Lemma acquired_branch_ends_released_witness :
  sessions
    (steps Sample.cfg_url initial
       [(0%Z, Request Sample.hello);
        (130000%Z, ExecSettled 0 (ExecRejected true "Command failed"));
        (130500%Z, PostSettled 0 (PostRejected "ECONNRESET"))]).1
  = ∅.
Proof.
  assert (accepted Sample.cfg_url Sample.hello Sample.hello_message) as Hacc
    by (apply hello_accepted; reflexivity).
  assert (getSessionId (chatId Sample.hello_message)
            (userId Sample.hello_message) = Normal "c1:u1") as Hsid
    by reflexivity.
  assert (sessions initial !! "c1:u1" = None) as Hfree by reflexivity.
  destruct (acquired_branch_ends_released Sample.cfg_url 0 130000 130500
              initial Sample.hello Sample.hello_message "c1:u1"
              (ExecRejected true "Command failed") (PostRejected "ECONNRESET")
              Hacc Hsid Hfree) as (Hsessions & _ & _).
  exact Hsessions.
Defined.

Lemma release_is_unconditional_witness :
  invocations
    (step Sample.cfg 7
       {| sessions := delete "c1:u1" Sample.registry; tasks := ∅; next_id := 3 |}
       (Request Sample.hello)).2 = 1.
Proof.
  assert (accepted Sample.cfg Sample.hello Sample.hello_message) as Hacc
    by (apply hello_accepted; reflexivity).
  assert (getSessionId (chatId Sample.hello_message)
            (userId Sample.hello_message) = Normal "c1:u1") as Hsid
    by reflexivity.
  assert (sessions initial !! "c1:u1" = None) as Hfree by reflexivity.
  destruct (release_is_unconditional Sample.cfg 0 initial Sample.hello
              Sample.hello_message "c1:u1" Hacc Hsid Hfree)
    as (_ & _ & Hagain).
  apply (Hagain _ 7%Z Sample.registry Sample.hello Sample.hello_message
           Hacc Hsid).
  reflexivity.
Defined.

(** ** Acknowledgment *)

Lemma passes_filters_accepted (cfg : config) (req : request) (m : message)
    (line : string) :
  passes_filters cfg req m →
  received_log m = Normal line →
  accepted cfg req m.
Proof.
  intros (body & Hbody & Hsig & Hparse & Hkw) Hlog.
  unfold accepted, webhook_dingtalk, webhook_try.
  assert (∃ h, Get (req_body req) "header" = Normal h) as [h Hh].
  { destruct (req_body req); simpl in *; try discriminate; eauto. }
  rewrite Hh, Hbody. simpl.
  assert (header_truthy (signature_timestamp req)
          && header_truthy (signature req)
          && negb (verifySignature cfg (default "" (signature_timestamp req))
                     (default "" (signature req)) body) = false) as ->.
  { destruct (header_truthy (signature_timestamp req)); [|reflexivity].
    destruct (header_truthy (signature req)); [|reflexivity].
    by rewrite Hsig. }
  rewrite Hparse. simpl.
  assert (JsString.truthy (dingtalkKeyword cfg)
          && negb (JsString.includes (content m) (dingtalkKeyword cfg)) = false)
    as ->.
  { destruct (JsString.truthy (dingtalkKeyword cfg)) eqn:Ht; [|reflexivity].
    apply truthy_nonempty in Ht. by rewrite (Hkw Ht). }
  rewrite Hlog. reflexivity.
Qed.

Lemma settle_no_response (id : nat)
    (r : sessions_map * status (completion unit)) (srv : server) :
  Forall (λ e, is_response e = false) (settle id r srv).2.
Proof.
  unfold settle. destruct r as [m [[[]|e]|[cmd t k|url p k]]]; simpl;
    repeat constructor.
Qed.

Lemma settle_next_id (id : nat)
    (r : sessions_map * status (completion unit)) (srv : server) :
  next_id (settle id r srv).1 = next_id srv.
Proof. unfold settle. by destruct r as [m [c|w]]. Qed.

Lemma no_response_own (id : nat) (l : list event) :
  Forall (λ e, is_response e = false) l → Forall (own_event id) l.
Proof.
  intros Hl. eapply Forall_impl; [exact Hl|].
  intros [] H; simpl in *; try exact I; discriminate.
Qed.

Lemma perform_actions (now : Z) (id : nat) (actions : list action)
    (acc : server * list event) :
  let r := foldl (perform now id) acc actions in
  next_id r.1 = next_id acc.1
  ∧ (Forall (own_event id) acc.2 → Forall (own_event id) r.2).
Proof.
  revert acc. induction actions as [|a actions IH]; intros acc; [by split|].
  simpl. destruct (IH (perform now id acc a)) as [IHn IHe].
  split.
  - rewrite IHn. destruct a; simpl; [reflexivity | apply settle_next_id].
  - intros Hacc. apply IHe. destruct a; simpl.
    + apply Forall_app. split; [exact Hacc | by repeat constructor].
    + apply Forall_app. split; [exact Hacc|].
      apply no_response_own, settle_no_response.
Qed.

(** A step answers no request but the one it handles. *)
Lemma step_events_own (cfg : config) (now : Z) (srv : server) (i : input) :
  Forall (own_event (next_id srv)) (step cfg now srv i).2
  ∧ next_id srv ≤ next_id (step cfg now srv i).1
  ∧ (∀ req, i = Request req → next_id (step cfg now srv i).1 = S (next_id srv)).
Proof.
  destruct i as [req | id r | id r |]; simpl.
  - destruct (perform_actions now (next_id srv) (webhook_dingtalk cfg req)
                ({| sessions := sessions srv; tasks := tasks srv;
                    next_id := S (next_id srv) |}, [])) as [Hn He].
    simpl in *. rewrite Hn. split; [by apply He|]. split; [lia | auto].
  - destruct (tasks srv !! id) as [[cmd t k|url p k]|]; simpl;
      try (split; [constructor | split; [lia | intros; discriminate]]).
    rewrite settle_next_id.
    split; [apply no_response_own, settle_no_response|].
    split; [lia | intros; discriminate].
  - destruct (tasks srv !! id) as [[cmd t k|url p k]|]; simpl;
      try (split; [constructor | split; [lia | intros; discriminate]]).
    rewrite settle_next_id.
    split; [apply no_response_own, settle_no_response|].
    split; [lia | intros; discriminate].
  - split; [constructor | split; [lia | intros; discriminate]].
Qed.

(** In a run from [srv], every response is to a request numbered from
    [next_id srv] on. *)
Lemma steps_responses_later (cfg : config) (l : list (Z * input)) (srv : server)
    (id : nat) (status : Z) (body : jsval) :
  Response id status body ∈ (steps cfg srv l).2 → next_id srv ≤ id.
Proof.
  revert srv. induction l as [|[now i] l IH]; intros srv Hin.
  - simpl in Hin. by apply elem_of_nil in Hin.
  - rewrite steps_cons in Hin. cbn [snd] in Hin.
    destruct (step_events_own cfg now srv i) as (Hown & Hle & _).
    apply elem_of_app in Hin as [Hin | Hin].
    + rewrite Forall_forall in Hown. specialize (Hown _ Hin). simpl in Hown. lia.
    + apply IH in Hin. lia.
Qed.

(** The claim as the specification states it fails: a message whose sender
    id is an object with an own [toString] property passes the signature
    check, the parser and the keyword filter, and is answered with status
    500, not with the acknowledgment; nothing is started. *)
Lemma odd_sender_gets_500 :
  passes_filters Sample.cfg Sample.odd Sample.odd_message
  ∧ step Sample.cfg 0 initial (Request Sample.odd)
    = ({| sessions := ∅; tasks := ∅; next_id := 1 |},
       [Response 0 500 (json_error "内部错误")]).
Proof.
  split; [|reflexivity].
  exists (Sample.text_from Sample.odd_sender "Moltbot hello").
  split; [reflexivity|]. split; [intros H; discriminate H|].
  split; [reflexivity|]. intros _. reflexivity.
Qed.

(** C8 (amended).  For a message that passes the signature check, the
    parser and the keyword filter, and whose receipt log line is rendered
    without an exception, the handler answers [ok] and only then starts the
    asynchronous part: the response is the first event of the step, no
    other event of the step is a response, and in every continuation of the
    run, however the agent and the posts settle, each response is to a later
    request. *)
Theorem ack_precedes_pipeline (cfg : config) (now : Z) (srv : server)
    (req : request) (m : message) (line : string) :
  passes_filters cfg req m →
  received_log m = Normal line →
  let id := next_id srv in
  let r := step cfg now srv (Request req) in
  webhook_dingtalk cfg req
  = [Respond 200 (json_status "ok"); Spawn (process_message cfg m)]
  ∧ (∃ rest, r.2 = Response id 200 (json_status "ok") :: rest
           ∧ Forall (λ e, is_response e = false) rest)
  ∧ (∀ l id' status body,
       Response id' status body ∈ (steps cfg r.1 l).2 → id < id').
Proof.
  intros Hpass Hlog id r.
  pose proof (passes_filters_accepted cfg req m line Hpass Hlog) as Hacc.
  split; [exact Hacc|]. split.
  - subst r. rewrite (step_accepted cfg now srv req m Hacc). simpl.
    eexists. split; [reflexivity|]. apply settle_no_response.
  - intros l id' status body Hin.
    apply steps_responses_later in Hin.
    destruct (step_events_own cfg now srv (Request req)) as (_ & _ & Hnext).
    fold r in Hnext. rewrite (Hnext req eq_refl) in Hin. subst id. lia.
Qed.

Lemma ack_precedes_pipeline_witness :
  webhook_dingtalk Sample.cfg Sample.hello
  = [Respond 200 (json_status "ok");
     Spawn (process_message Sample.cfg Sample.hello_message)].
Proof.
  assert (passes_filters Sample.cfg Sample.hello Sample.hello_message) as Hpass.
  { exists (Sample.text_from (JStr "u1") "Moltbot hello").
    split; [reflexivity|]. split; [intros H; discriminate H|].
    split; [reflexivity|]. intros _. vm_compute. reflexivity. }
  assert (received_log Sample.hello_message
          = Normal "收到消息 [私聊] u1: Moltbot hello") as Hlog
    by (vm_compute; reflexivity).
  destruct (ack_precedes_pipeline Sample.cfg 0 initial Sample.hello
              Sample.hello_message _ Hpass Hlog) as [Hacts _].
  exact Hacts.
Defined.

(** ** The acknowledgment comes first in every run *)

Lemma webhook_shape (cfg : config) (req : request) :
  (∃ status body, webhook_dingtalk cfg req = [Respond status body])
  ∨ (∃ m, accepted cfg req m).
Proof.
  unfold accepted, webhook_dingtalk, webhook_try.
  destruct (Get (req_body req) "header") as [h|]; simpl; [|left; eauto].
  destruct (Get (req_body req) "body") as [body|]; simpl; [|left; eauto].
  destruct (_ && negb (verifySignature _ _ _ _)); [left; eauto|].
  destruct (parseDingtalkMessage body) as [[m|]|]; simpl; [|left; eauto..].
  destruct (_ && negb (JsString.includes _ _)); [left; eauto|].
  destruct (received_log m); simpl; [right; eauto | left; eauto].
Qed.

#[local] Arguments ack_of : simpl never.
#[local] Set Warnings "-clear-no-such-hyp".

Lemma ack_first_app (s : gset nat) (a b : list event) :
  ack_first s (a ++ b) = ack_first s a && ack_first (s ∪ acks a) b.
Proof.
  revert s. induction a as [|e a IH]; intros s.
  - simpl. f_equal. unfold acks. simpl. set_solver.
  - destruct e as [id st body | id c t | id u p | id err]; simpl.
    + rewrite IH. f_equal. f_equal. unfold acks. simpl.
      destruct (ack_of (Response id st body)); simpl; set_solver.
    + rewrite IH, andb_assoc. reflexivity.
    + rewrite IH, andb_assoc. reflexivity.
    + rewrite IH, andb_assoc. reflexivity.
Qed.

Lemma ack_first_mono (s s' : gset nat) (evs : list event) :
  s ⊆ s' → ack_first s evs = true → ack_first s' evs = true.
Proof.
  revert s s'. induction evs as [|e evs IH]; intros s s' Hsub; [done|].
  destruct e as [id st body | id c t | id u p | id err]; simpl.
  - apply IH. destruct (ack_of _); set_solver.
  - rewrite !andb_true_iff, !bool_decide_eq_true.
    intros [Hin Hrest]. split; [set_solver | by eapply IH].
  - rewrite !andb_true_iff, !bool_decide_eq_true.
    intros [Hin Hrest]. split; [set_solver | by eapply IH].
  - rewrite !andb_true_iff, !bool_decide_eq_true.
    intros [Hin Hrest]. split; [set_solver | by eapply IH].
Qed.

Lemma settle_acked (id : nat) (r : sessions_map * status (completion unit))
    (srv : server) (s : gset nat) :
  tasks_acked srv s → id ∈ s →
  ack_first s (settle id r srv).2 = true
  ∧ tasks_acked (settle id r srv).1 s.
Proof.
  intros Hinv Hid. unfold settle.
  destruct r as [m [[[]|e]|[cmd t k|url p k]]]; simpl;
    rewrite ?bool_decide_eq_true_2 by exact Hid; (split; [reflexivity|]);
    intros id' Hs; simpl in Hs;
    destruct (decide (id' = id)) as [->|Hne]; try exact Hid;
    rewrite ?lookup_delete_ne, ?lookup_insert_ne in Hs by done; by apply Hinv.
Qed.

Lemma step_acked (cfg : config) (now : Z) (srv : server) (i : input)
    (s : gset nat) :
  tasks_acked srv s →
  ack_first s (step cfg now srv i).2 = true
  ∧ tasks_acked (step cfg now srv i).1 (s ∪ acks (step cfg now srv i).2).
Proof.
  intros Hinv. destruct i as [req | id r | id r |].
  - destruct (webhook_shape cfg req) as [(st & body & Hw) | (m & Hacc)].
    + unfold step. rewrite Hw. simpl. split; [reflexivity|].
      intros id Hid. apply elem_of_union_l. by apply Hinv.
    + rewrite (step_accepted cfg now srv req m Hacc).
      set (srv' := {| sessions := sessions srv; tasks := tasks srv;
                      next_id := S (next_id srv) |}).
      destruct (settle_acked (next_id srv)
                  (run now (process_message cfg m) (sessions srv)) srv'
                  ({[next_id srv]} ∪ s)) as [Hev Ht].
      { intros id Hid. apply elem_of_union_r. by apply Hinv. }
      { set_solver. }
      cbn [fst snd]. split; [exact Hev|].
      intros id Hid. specialize (Ht id Hid). unfold acks. simpl. set_solver.
  - unfold step.
    destruct (tasks srv !! id) as [[cmd t k|url p k]|] eqn:Hid;
      try (split; [reflexivity|]; intros id' H'; apply elem_of_union_l;
           by apply Hinv).
    destruct (settle_acked id (run now (k r) (sessions srv)) srv s Hinv)
      as [Hev Ht]; [apply Hinv; eauto|].
    split; [exact Hev|]. intros id' H'. apply elem_of_union_l. by apply Ht.
  - unfold step.
    destruct (tasks srv !! id) as [[cmd t k|url p k]|] eqn:Hid;
      try (split; [reflexivity|]; intros id' H'; apply elem_of_union_l;
           by apply Hinv).
    destruct (settle_acked id (run now (k r) (sessions srv)) srv s Hinv)
      as [Hev Ht]; [apply Hinv; eauto|].
    split; [exact Hev|]. intros id' H'. apply elem_of_union_l. by apply Ht.
  - simpl. split; [reflexivity|]. intros id Hid. apply elem_of_union_l.
    by apply Hinv.
Qed.

Lemma steps_acked (cfg : config) (l : list (Z * input)) (srv : server)
    (s : gset nat) :
  tasks_acked srv s → ack_first s (steps cfg srv l).2 = true.
Proof.
  revert srv s. induction l as [|[now i] l IH]; intros srv s Hinv; [done|].
  rewrite steps_cons. cbn [snd]. rewrite ack_first_app.
  destruct (step_acked cfg now srv i s Hinv) as [Hev Ht].
  rewrite Hev. simpl. by apply IH.
Qed.

(** X1.  In every run of the server from its initial state, whatever
    arrives and however the agent and the posts settle, each event of an
    asynchronous part comes after the acknowledgment of its request. *)
Theorem ack_first_in_every_run (cfg : config) (l : list (Z * input)) :
  ack_first ∅ (steps cfg initial l).2 = true.
Proof.
  apply steps_acked. intros id [w Hw]. simpl in Hw.
  by rewrite lookup_empty in Hw.
Qed.

(** ** Runs of the whole server *)

(** X3.  A message without the keyword is answered [keyword_mismatch];
    nothing is started and the session map is not touched. *)
Theorem keyword_mismatch_is_terminal (cfg : config) (now : Z) (srv : server)
    (req : request) (body : jsval) (m : message) :
  Get (req_body req) "body" = Normal body →
  header_truthy (signature_timestamp req) && header_truthy (signature req)
  && negb (verifySignature cfg (default "" (signature_timestamp req))
             (default "" (signature req)) body) = false →
  parseDingtalkMessage body = Normal (Some m) →
  dingtalkKeyword cfg ≠ "" →
  JsString.includes (content m) (dingtalkKeyword cfg) = false →
  step cfg now srv (Request req)
  = ({| sessions := sessions srv; tasks := tasks srv;
        next_id := S (next_id srv) |},
     [Response (next_id srv) 200 (json_status "keyword_mismatch")]).
Proof.
  intros Hbody Hsig Hparse Hkw Hmiss.
  unfold step, webhook_dingtalk, webhook_try.
  assert (∃ h, Get (req_body req) "header" = Normal h) as [h Hh].
  { destruct (req_body req); simpl in *; try discriminate; eauto. }
  rewrite Hh, Hbody. simpl. rewrite Hsig, Hparse. simpl.
  apply truthy_nonempty in Hkw. rewrite Hkw, Hmiss. reflexivity.
Qed.

Lemma keyword_mismatch_is_terminal_witness :
  step Sample.cfg 0 initial
    (Request (Sample.post (Sample.text_from (JStr "u1") "hello")))
  = ({| sessions := ∅; tasks := ∅; next_id := 1 |},
     [Response 0 200 (json_status "keyword_mismatch")]).
Proof.
  apply (keyword_mismatch_is_terminal Sample.cfg 0 initial _
           (Sample.text_from (JStr "u1") "hello")
           {| type := "text"; content := "hello"; userId := JStr "u1";
              chatId := JStr "c1"; isGroup := false |});
    try reflexivity.
  vm_compute. discriminate.
Defined.

(** The run of the specification's end-to-end test: a first message, a
    second for the same key while the first is processed, then the agent and
    the two posts settle.  The agent is started once, the second message
    gets the notice, the reply is delivered, and the session map is empty
    at the end. *)
Example end_to_end_run :
  let r := steps Sample.cfg_url initial
             [(0%Z, Request Sample.hello);
              (10%Z, Request Sample.hello);
              (20%Z, ExecSettled 0 (ExecResolved " hi there " ""));
              (30%Z, PostSettled 1 PostResolved);
              (40%Z, PostSettled 0 (PostRejected "ECONNRESET"))] in
  r.2 = [Response 0 200 (json_status "ok");
         ExecCall 0
           ("moltbot agent --message "
            +:+ String JsString.dquote
                  ("Moltbot hello" +:+ String JsString.dquote " --timeout 120"))
           130000;
         Response 1 200 (json_status "ok");
         PostCall 1 "http://hook" (text_payload "请稍候，我正在思考...");
         PostCall 0 "http://hook" (text_payload "hi there")]
  ∧ map_to_list (sessions r.1) = []
  ∧ map_to_list (tasks r.1) = []
  ∧ invocations r.2 = 1.
Proof. vm_compute. auto. Qed.

(** A killed agent and an agent that only wrote to its diagnostic stream. *)
Example agent_timeout_and_stderr_run :
  (steps Sample.cfg_url initial
     [(0%Z, Request Sample.hello);
      (130000%Z, ExecSettled 0 (ExecRejected true "Command failed"))]).2
  = [Response 0 200 (json_status "ok");
     ExecCall 0 (agent_command Sample.cfg_url "Moltbot hello") 130000;
     PostCall 0 "http://hook" (text_payload "处理超时，请稍后再试")]
  ∧ (steps Sample.cfg_url initial
       [(0%Z, Request Sample.hello);
        (5%Z, ExecSettled 0 (ExecResolved "" " warning: slow "))]).2
    = [Response 0 200 (json_status "ok");
       ExecCall 0 (agent_command Sample.cfg_url "Moltbot hello") 130000;
       PostCall 0 "http://hook" (text_payload "warning: slow")].
Proof. vm_compute. auto. Qed.

(** * Further properties *)

(** ** Strings *)

Lemma append_nil_r (s : string) : s +:+ "" = s.
Proof. induction s as [|a s IH]; [reflexivity|]. rewrite append_cons. by rewrite IH. Qed.

Lemma append_assoc (s t u : string) : (s +:+ t) +:+ u = s +:+ (t +:+ u).
Proof.
  induction s as [|a s IH]; [reflexivity|]. rewrite !append_cons. by rewrite IH.
Qed.

Lemma rev_app_append (s t : string) : String.rev_app s t = String.rev s +:+ t.
Proof.
  revert t. induction s as [|a s IH]; intros t; [reflexivity|].
  unfold String.rev. simpl. rewrite (IH (String a "")), IH, append_assoc.
  reflexivity.
Qed.

Lemma rev_cons (a : ascii) (s : string) :
  String.rev (String a s) = String.rev s +:+ String a "".
Proof. unfold String.rev at 1. simpl. apply rev_app_append. Qed.

Lemma rev_append (s t : string) :
  String.rev (s +:+ t) = String.rev t +:+ String.rev s.
Proof.
  induction s as [|a s IH].
  - change ("" +:+ t) with t. by rewrite append_nil_r.
  - rewrite append_cons, !rev_cons, IH. apply append_assoc.
Qed.

Lemma rev_involutive (s : string) : String.rev (String.rev s) = s.
Proof.
  induction s as [|a s IH]; [reflexivity|].
  rewrite rev_cons, rev_append, IH. reflexivity.
Qed.

Section strip.
Variable p1 : ascii → bool.
Variable p2 : ascii → ascii → bool.
Variable p3 : ascii → ascii → ascii → bool.

Lemma strip_by_length (P : string → Prop) :
  (∀ s, (∀ t, String.length t < String.length s → P t) → P s) → ∀ s, P s.
Proof.
  intros Hstep s.
  assert (∀ n t, String.length t < n → P t) as Hall.
  { induction n as [|n IH]; intros t Ht; [lia|].
    apply Hstep. intros u Hu. apply IH. lia. }
  apply (Hall (S (String.length s))). lia.
Qed.

(** What [strip] returns is the end of its argument. *)
Lemma strip_suffix (s : string) :
  ∃ pre, s = pre +:+ JsString.strip p1 p2 p3 s.
Proof.
  induction s as [s IH] using strip_by_length.
  destruct s as [|a t]; [by exists ""|]. simpl.
  destruct (p1 a).
  { destruct (IH t) as [pre Hpre]; [simpl; lia|].
    exists (String a pre). rewrite append_cons. by rewrite <- Hpre. }
  destruct t as [|b u]; [by exists ""|].
  destruct (p2 a b).
  { destruct (IH u) as [pre Hpre]; [simpl; lia|].
    exists (String a (String b pre)). rewrite !append_cons. by rewrite <- Hpre. }
  destruct u as [|c v]; [by exists ""|].
  destruct (p3 a b c); [|by exists ""].
  destruct (IH v) as [pre Hpre]; [simpl; lia|].
  exists (String a (String b (String c pre))). rewrite !append_cons.
  by rewrite <- Hpre.
Qed.

(** What [strip] returns starts with no character it removes. *)
Lemma strip_starts (s : string) :
  starts_with p1 p2 p3 (JsString.strip p1 p2 p3 s) = false.
Proof.
  induction s as [s IH] using strip_by_length.
  destruct s as [|a t]; [reflexivity|]. simpl.
  destruct (p1 a) eqn:H1; [apply IH; simpl; lia|].
  destruct t as [|b u]; [simpl; by rewrite H1|].
  destruct (p2 a b) eqn:H2; [apply IH; simpl; lia|].
  destruct u as [|c v]; [simpl; by rewrite H1, H2|].
  destruct (p3 a b c) eqn:H3; [apply IH; simpl; lia|].
  simpl. by rewrite H1, H2, H3.
Qed.

Lemma strip_fixed (s : string) :
  starts_with p1 p2 p3 s = false → JsString.strip p1 p2 p3 s = s.
Proof.
  destruct s as [|a t]; [reflexivity|]. simpl.
  destruct (p1 a); [discriminate|]. simpl.
  destruct t as [|b u]; [reflexivity|].
  destruct (p2 a b); [discriminate|]. simpl.
  destruct u as [|c v]; [reflexivity|].
  destruct (p3 a b c); [discriminate | reflexivity].
Qed.

Lemma starts_with_append (s t : string) :
  starts_with p1 p2 p3 s = true → starts_with p1 p2 p3 (s +:+ t) = true.
Proof.
  destruct s as [|a s]; [discriminate|]. rewrite append_cons. simpl.
  destruct (p1 a); [reflexivity|]. simpl.
  destruct s as [|b s]; [discriminate|]. rewrite append_cons.
  destruct (p2 a b); [reflexivity|]. simpl.
  destruct s as [|c s]; [discriminate|]. rewrite append_cons. auto.
Qed.

End strip.

Lemma trimEnd_prefix (s : string) : ∃ suf, s = JsString.trimEnd s +:+ suf.
Proof.
  unfold JsString.trimEnd.
  destruct (strip_suffix JsString.ws1 (λ b a, JsString.ws2 a b)
              (λ c b a, JsString.ws3 a b c) (String.rev s)) as [pre Hpre].
  exists (String.rev pre).
  rewrite <- rev_append, <- Hpre. symmetry. apply rev_involutive.
Qed.

(** [trim] leaves no whitespace at either end, and trimming again changes
    nothing. *)
Lemma trim_trimmed (s : string) :
  leading_ws (JsString.trim s) = false
  ∧ trailing_ws (JsString.trim s) = false
  ∧ JsString.trim (JsString.trim s) = JsString.trim s.
Proof.
  assert (leading_ws (JsString.trimStart s) = false) as Hstart
    by apply strip_starts.
  assert (leading_ws (JsString.trim s) = false) as Hlead.
  { unfold JsString.trim.
    destruct (trimEnd_prefix (JsString.trimStart s)) as [suf Hsuf].
    destruct (leading_ws (JsString.trimEnd (JsString.trimStart s))) eqn:Hl;
      [|reflexivity].
    apply (starts_with_append _ _ _ _ suf) in Hl.
    unfold leading_ws in *. rewrite <- Hsuf in Hl. congruence. }
  assert (∀ t, trailing_ws (JsString.trimEnd t) = false) as Htrail.
  { intros t. unfold trailing_ws, JsString.trimEnd. rewrite rev_involutive.
    apply strip_starts. }
  split; [exact Hlead|]. split; [apply Htrail|].
  unfold JsString.trim at 1. unfold JsString.trimStart.
  rewrite (strip_fixed _ _ _ _ Hlead).
  unfold JsString.trim, JsString.trimEnd. rewrite rev_involutive.
  rewrite (strip_fixed _ _ _ (JsString.strip _ _ _ _)); [reflexivity|].
  apply strip_starts.
Qed.

(** ** More on cleanupSessions *)

Lemma lookup_cleanupSessions (cfg : config) (now : Z) (m : sessions_map)
    (id : string) :
  (run now (cleanupSessions cfg) m).1 !! id
  = match m !! id with
    | Some e => if expired cfg now e then None else Some e
    | None => None
    end.
Proof.
  rewrite run_cleanupSessions. cbn [fst]. rewrite lookup_sweep.
  destruct (m !! id) as [e|] eqn:Hid.
  - by rewrite (swept_map_to_list cfg now m id e Hid).
  - by destruct (swept cfg now id (map_to_list m)).
Qed.

(** X5.  A later run of [cleanupSessions] subsumes an earlier one: sweeping
    at [now1] and again at a later [now2] leaves what one sweep at [now2]
    leaves.  In particular a second sweep in the same millisecond removes
    nothing more. *)
Theorem cleanup_later_subsumes (cfg : config) (now1 now2 : Z)
    (m : sessions_map) :
  (now1 ≤ now2)%Z →
  (run now2 (cleanupSessions cfg) (run now1 (cleanupSessions cfg) m).1).1
  = (run now2 (cleanupSessions cfg) m).1.
Proof.
  intros Hle. apply map_eq. intros id. rewrite !lookup_cleanupSessions.
  destruct (m !! id) as [e|]; [|reflexivity].
  destruct (expired cfg now1 e) eqn:H1; [|reflexivity].
  unfold expired in *. apply Z.gtb_gt in H1.
  destruct (Z.gtb_spec (now2 - lastActivity e) (Z.of_N (sessionTimeout cfg)));
    [reflexivity | lia].
Qed.

Lemma cleanup_later_subsumes_witness :
  (run 400000 (cleanupSessions Sample.cfg)
     (run 300001 (cleanupSessions Sample.cfg) Sample.registry).1).1
  = (run 400000 (cleanupSessions Sample.cfg) Sample.registry).1.
Proof.
  apply (cleanup_later_subsumes Sample.cfg 300001 400000 Sample.registry). lia.
Defined.

(** ** getSessionId *)

(** X6.  The session id does not tell the chat from the user: a colon in
    either id moves the border, so two different pairs share one id. *)
Theorem getSessionId_collision (a b c : string) :
  getSessionId (JStr (a +:+ ":" +:+ b)) (JStr c)
  = getSessionId (JStr a) (JStr (b +:+ ":" +:+ c)).
Proof. unfold getSessionId. simpl. by rewrite append_assoc. Qed.

Lemma colon_split (c1 c2 u1 u2 : string) :
  has_colon c1 = false → has_colon c2 = false →
  c1 +:+ ":" +:+ u1 = c2 +:+ ":" +:+ u2 → c1 = c2 ∧ u1 = u2.
Proof.
  revert c2. induction c1 as [|x c1 IH]; intros [|y c2] H1 H2 Heq.
  - by inversion Heq.
  - inversion Heq; subst y. discriminate H2.
  - inversion Heq; subst x. discriminate H1.
  - unfold has_colon in H1, H2. simpl in H1, H2.
    apply orb_false_iff in H1 as [_ H1]. apply orb_false_iff in H2 as [_ H2].
    rewrite !append_cons in Heq. inversion Heq; subst y.
    destruct (IH c2 H1 H2) as [-> ->]; [assumption | done].
Qed.

(** X7.  For chat ids that are strings without a colon the session id
    determines the chat and the user. *)
Theorem getSessionId_injective (c1 c2 u1 u2 : string) :
  has_colon c1 = false → has_colon c2 = false →
  getSessionId (JStr c1) (JStr u1) = getSessionId (JStr c2) (JStr u2) →
  c1 = c2 ∧ u1 = u2.
Proof.
  intros H1 H2 Heq. unfold getSessionId in Heq. simpl in Heq.
  inversion Heq as [Hs]. by apply colon_split.
Qed.

Lemma getSessionId_injective_witness : "c1" = "c1" ∧ "u:1" = "u:1".
Proof.
  apply (getSessionId_injective "c1" "c1" "u:1" "u:1"); reflexivity.
Defined.

(** ** More on parseDingtalkMessage *)

Lemma Get_field (v : jsval) (name : string) :
  nullish v = false → Get v name = Normal (field v name).
Proof. destruct v; simpl; intros; try reflexivity; discriminate. Qed.

Lemma OptGet_field (v : jsval) (name : string) :
  OptGet v name = Normal (opt_field v name).
Proof.
  unfold OptGet, opt_field. destruct (nullish v) eqn:Hn; [reflexivity|].
  by apply Get_field.
Qed.

(** The parser on a payload that has properties, by the value of
    [data.text?.content]. *)
Lemma parse_by_content (data : jsval) :
  nullish data = false →
  parseDingtalkMessage data
  = let c := opt_field (field data "text") "content" in
    if ToBoolean c then
      content ← call_trim c;
      Normal (Some {| type := "text";
                      content := content;
                      userId := sender_of data;
                      chatId := field data "conversationId";
                      isGroup := strict_eq_string
                                   (field data "conversationType") "group" |})
    else Normal None.
Proof.
  intros Hn. unfold parseDingtalkMessage, sender_of.
  rewrite !(Get_field data) by exact Hn.
  cbn [mbind completion_mbind completion_bind]. rewrite !OptGet_field.
  cbn [mbind completion_mbind completion_bind]. cbv zeta.
  destruct (ToBoolean (opt_field (field data "text") "content")) eqn:Hc;
    [|reflexivity].
  assert (nullish (field data "text") = false) as Ht.
  { destruct (nullish (field data "text")) eqn:Ht; [|reflexivity].
    unfold opt_field in Hc. rewrite Ht in Hc. discriminate Hc. }
  rewrite (Get_field _ _ Ht). cbn [mbind completion_mbind completion_bind].
  assert (opt_field (field data "text") "content"
          = field (field data "text") "content") as ->
    by (unfold opt_field; by rewrite Ht).
  destruct (call_trim (field (field data "text") "content")) as [s|e];
    [|reflexivity].
  cbn [mbind completion_mbind completion_bind].
  by destruct (ToBoolean (field data "senderStaffId")).
Qed.

(** X8.  [parseDingtalkMessage] throws in two cases only: the payload is
    [null] or [undefined], or [data.text.content] is truthy and not a
    string (it has no [trim]).  Nothing else in the payload makes it
    throw. *)
Theorem parseDingtalkMessage_throws_iff (data : jsval) :
  (∃ e, parseDingtalkMessage data = Throw e)
  ↔ nullish data = true
    ∨ (ToBoolean (opt_field (field data "text") "content") = true
       ∧ ∀ s, opt_field (field data "text") "content" ≠ JStr s).
Proof.
  destruct (nullish data) eqn:Hn.
  - split; [by left|]. intros _. destruct data; try discriminate; by eexists.
  - rewrite (parse_by_content data Hn). cbv zeta.
    destruct (ToBoolean (opt_field (field data "text") "content")) eqn:Hc.
    + destruct (opt_field (field data "text") "content") as [| |b|n|s|l|fs];
        simpl; split;
        try (intros _; right; split; [reflexivity | intros s'; discriminate]);
        try (intros _; by eexists).
      * intros [e He]. discriminate He.
      * intros [H | [_ H]]; [discriminate H | by destruct (H s)].
    + split; [intros [e He]; discriminate He|].
      intros [H | [H _]]; discriminate H.
Qed.

(** X9.  A parsed message, field by field: the content is the non-empty
    string [data.text.content] trimmed, so it neither starts nor ends with
    whitespace and trimming it again changes nothing (it may be empty); the
    user is [data.senderStaffId] when that is truthy and [data.senderId?.id]
    otherwise; the chat is [data.conversationId]; the message is a group
    message exactly when [data.conversationType] is the string [group]. *)
Theorem parsed_message_fields (data : jsval) (m : message) :
  parseDingtalkMessage data = Normal (Some m) →
  ∃ s, field (field data "text") "content" = JStr s
     ∧ s ≠ ""
     ∧ content m = JsString.trim s
     ∧ leading_ws (content m) = false
     ∧ trailing_ws (content m) = false
     ∧ JsString.trim (content m) = content m
     ∧ type m = "text"
     ∧ userId m = sender_of data
     ∧ chatId m = field data "conversationId"
     ∧ isGroup m = strict_eq_string (field data "conversationType") "group".
Proof.
  intros Hp.
  assert (nullish data = false) as Hn.
  { destruct data; try reflexivity; discriminate Hp. }
  rewrite (parse_by_content data Hn) in Hp. cbv zeta in Hp.
  destruct (ToBoolean (opt_field (field data "text") "content")) eqn:Hc;
    [|discriminate Hp].
  assert (opt_field (field data "text") "content"
          = field (field data "text") "content") as Hopt.
  { unfold opt_field in *. destruct (nullish (field data "text"));
      [discriminate Hc | reflexivity]. }
  rewrite Hopt in Hp, Hc.
  destruct (field (field data "text") "content") as [| |b|n|s|l|fs];
    try discriminate Hp.
  simpl in Hp. inversion Hp; subst m; clear Hp. cbn [content type userId chatId isGroup].
  exists s. split; [reflexivity|]. split; [by apply truthy_nonempty|].
  split; [reflexivity|].
  destruct (trim_trimmed s) as (Hl & Ht & Hi). auto 10.
Qed.

Lemma parsed_message_fields_witness :
  ∃ s, field (field Sample.payload "text") "content" = JStr s
     ∧ s ≠ ""
     ∧ "hi" = JsString.trim s
     ∧ leading_ws "hi" = false
     ∧ trailing_ws "hi" = false
     ∧ JsString.trim "hi" = "hi"
     ∧ "text" = "text"
     ∧ JStr "u1" = sender_of Sample.payload
     ∧ JStr "c1" = field Sample.payload "conversationId"
     ∧ true = strict_eq_string (field Sample.payload "conversationType") "group".
Proof.
  apply (parsed_message_fields Sample.payload
           {| type := "text"; content := "hi"; userId := JStr "u1";
              chatId := JStr "c1"; isGroup := true |}).
  reflexivity.
Defined.

(** ** What the handler lets through *)

Lemma webhook_spawn (cfg : config) (req : request) (p : io (completion unit)) :
  Spawn p ∈ webhook_dingtalk cfg req →
  ∃ body m line,
    Get (req_body req) "body" = Normal body
    ∧ header_truthy (signature_timestamp req) && header_truthy (signature req)
      && negb (verifySignature cfg (default "" (signature_timestamp req))
                 (default "" (signature req)) body) = false
    ∧ parseDingtalkMessage body = Normal (Some m)
    ∧ JsString.truthy (dingtalkKeyword cfg)
      && negb (JsString.includes (content m) (dingtalkKeyword cfg)) = false
    ∧ received_log m = Normal line
    ∧ p = process_message cfg m.
Proof.
  unfold webhook_dingtalk, webhook_try.
  destruct (Get (req_body req) "header") as [h|];
    cbn [mbind completion_mbind completion_bind];
    [|intros H; apply list_elem_of_singleton in H; discriminate H].
  destruct (Get (req_body req) "body") as [body|];
    cbn [mbind completion_mbind completion_bind];
    [|intros H; apply list_elem_of_singleton in H; discriminate H].
  destruct (_ && negb (verifySignature _ _ _ _)) eqn:Hsig;
    [intros H; apply list_elem_of_singleton in H; discriminate H|].
  destruct (parseDingtalkMessage body) as [[m|]|] eqn:Hparse;
    cbn [mbind completion_mbind completion_bind];
    [|intros H; apply list_elem_of_singleton in H; discriminate H..].
  destruct (_ && negb (JsString.includes _ _)) eqn:Hkw;
    [intros H; apply list_elem_of_singleton in H; discriminate H|].
  destruct (received_log m) as [line|] eqn:Hlog;
    cbn [mbind completion_mbind completion_bind];
    [|intros H; apply list_elem_of_singleton in H; discriminate H].
  intros H. apply elem_of_cons in H as [H | H]; [discriminate H|].
  apply list_elem_of_singleton in H. inversion H; subst p.
  exists body, m, line. auto 10.
Qed.

Lemma spawn_passes_filters (cfg : config) (req : request)
    (p : io (completion unit)) :
  Spawn p ∈ webhook_dingtalk cfg req →
  ∃ m line, passes_filters cfg req m
          ∧ received_log m = Normal line
          ∧ p = process_message cfg m.
Proof.
  intros Hin.
  destruct (webhook_spawn cfg req p Hin)
    as (body & m & line & Hbody & Hsig & Hparse & Hkw & Hlog & ->).
  exists m, line. split; [|by split].
  exists body. split; [exact Hbody|]. split.
  - intros Ht Hs. rewrite Ht, Hs in Hsig. simpl in Hsig.
    by apply negb_false_iff in Hsig.
  - split; [exact Hparse|]. intros Hne. apply truthy_nonempty in Hne.
    rewrite Hne in Hkw. simpl in Hkw. by apply negb_false_iff in Hkw.
Qed.


Lemma env_or_nonempty (env : gmap string string) (name fallback : string) :
  fallback ≠ "" → env_or env name fallback ≠ "".
Proof.
  intros Hf. unfold env_or. destruct (env !! name) as [v|]; [|exact Hf].
  destruct (JsString.truthy v) eqn:Hv; [by apply truthy_nonempty | exact Hf].
Qed.

Lemma includes_empty (k : string) : k ≠ "" → JsString.includes "" k = false.
Proof. destruct k; [done | reflexivity]. Qed.

(** X11.  The keyword filter cannot be switched off through the
    environment: an empty [DINGTALK_KEYWORD] falls back to [Moltbot] as an
    unset one does, so under every environment the keyword is not empty, and
    every message handed to the asynchronous part contains it (and so is not
    empty). *)
Theorem keyword_always_enforced (env : gmap string string) (req : request)
    (p : io (completion unit)) :
  Spawn p ∈ webhook_dingtalk (CONFIG env) req →
  dingtalkKeyword (CONFIG env) ≠ ""
  ∧ ∃ m, p = process_message (CONFIG env) m
       ∧ JsString.includes (content m) (dingtalkKeyword (CONFIG env)) = true
       ∧ content m ≠ "".
Proof.
  intros Hin.
  assert (dingtalkKeyword (CONFIG env) ≠ "") as Hne
    by (apply env_or_nonempty; discriminate).
  split; [exact Hne|].
  destruct (webhook_spawn (CONFIG env) req p Hin)
    as (body & m & line & _ & _ & _ & Hkw & _ & ->).
  exists m. split; [reflexivity|].
  pose proof Hne as Ht. apply truthy_nonempty in Ht.
  rewrite Ht, andb_true_l in Hkw. apply negb_false_iff in Hkw.
  split; [exact Hkw|].
  intros Hempty. rewrite Hempty, (includes_empty _ Hne) in Hkw. discriminate Hkw.
Qed.

Lemma keyword_always_enforced_witness :
  dingtalkKeyword (CONFIG {["DINGTALK_KEYWORD" := ""]}) ≠ ""
  ∧ ∃ m, process_message (CONFIG {["DINGTALK_KEYWORD" := ""]}) Sample.hello_message
         = process_message (CONFIG {["DINGTALK_KEYWORD" := ""]}) m
       ∧ JsString.includes (content m)
           (dingtalkKeyword (CONFIG {["DINGTALK_KEYWORD" := ""]})) = true
       ∧ content m ≠ "".
Proof.
  apply (keyword_always_enforced {["DINGTALK_KEYWORD" := ""]} Sample.hello).
  assert (dingtalkKeyword (CONFIG {["DINGTALK_KEYWORD" := ""]}) = "Moltbot")
    as Hkw by (vm_compute; reflexivity).
  rewrite (hello_accepted (CONFIG {["DINGTALK_KEYWORD" := ""]}) Hkw).
  apply elem_of_cons. right. by apply list_elem_of_singleton.
Defined.

(** ** The signature check in the handler *)

(** X12.  A request that lacks one of the two signature headers (or carries
    an empty one) is not checked at all: the handler treats it as it would
    with no signing key configured. *)
Theorem unsigned_request_skips_check (cfg : config) (req : request) :
  header_truthy (signature_timestamp req) && header_truthy (signature req)
  = false →
  webhook_dingtalk cfg req = webhook_dingtalk (without_key cfg) req.
Proof.
  intros Hh. unfold webhook_dingtalk, webhook_try. rewrite Hh. reflexivity.
Qed.

Lemma unsigned_request_skips_check_witness :
  webhook_dingtalk Sample.cfg_key Sample.hello
  = webhook_dingtalk (without_key Sample.cfg_key) Sample.hello.
Proof.
  apply (unsigned_request_skips_check Sample.cfg_key Sample.hello). reflexivity.
Defined.

(** X13.  A request with both signature headers and a signature that
    [verifySignature] refuses is answered with status 401 before the message
    is looked at: whatever [req.body.body] holds, nothing is parsed, nothing
    is started and the session map is not touched. *)
Theorem bad_signature_rejected_first (cfg : config) (now : Z) (srv : server)
    (req : request) :
  nullish (req_body req) = false →
  header_truthy (signature_timestamp req) = true →
  header_truthy (signature req) = true →
  verifySignature cfg (default "" (signature_timestamp req))
    (default "" (signature req)) (field (req_body req) "body") = false →
  step cfg now srv (Request req)
  = ({| sessions := sessions srv; tasks := tasks srv;
        next_id := S (next_id srv) |},
     [Response (next_id srv) 401 (json_error "签名验证失败")]).
Proof.
  intros Hn Ht Hs Hv. unfold step, webhook_dingtalk, webhook_try.
  rewrite !Get_field by exact Hn.
  cbn [mbind completion_mbind completion_bind]. rewrite Ht, Hs, Hv.
  reflexivity.
Qed.

Lemma bad_signature_rejected_first_witness :
  step Sample.cfg_key 0 initial
    (Request {| signature_timestamp := Some "1000"; signature := Some "nope";
                req_body := JObj [("body", JNull)] |})
  = ({| sessions := ∅; tasks := ∅; next_id := 1 |},
     [Response 0 401 (json_error "签名验证失败")]).
Proof.
  apply (bad_signature_rejected_first Sample.cfg_key 0 initial
           {| signature_timestamp := Some "1000"; signature := Some "nope";
              req_body := JObj [("body", JNull)] |});
    vm_compute; reflexivity.
Defined.

(** ** The reply of the agent *)

(** X14.  The reply [sendToMoltbot] resolves to is empty in one case only:
    the agent wrote nothing but whitespace to its output and something, but
    nothing but whitespace, to its error stream.  Every other outcome gives
    a text to deliver. *)
Theorem reply_empty_iff (cfg : config) (message : string) (chatId : jsval)
    (r : exec_result) :
  ∃ text, reply_of cfg message chatId r = Some text
        ∧ (text = ""
           ↔ ∃ out err, r = ExecResolved out err
                      ∧ JsString.trim out = ""
                      ∧ err ≠ ""
                      ∧ JsString.trim err = "").
Proof.
  unfold reply_of, sendToMoltbot. simpl.
  destruct r as [out err | [] msg]; simpl.
  - destruct (JsString.truthy (JsString.trim out)) eqn:Hout; simpl.
    + eexists. split; [reflexivity|]. apply truthy_nonempty in Hout.
      split; [done|]. intros (o & e & Heq & Ho & _). by inversion Heq; subst.
    + apply truthy_empty in Hout.
      destruct (JsString.truthy err) eqn:Herr; simpl.
      * eexists. split; [reflexivity|]. apply truthy_nonempty in Herr.
        split; [intros Ht; by exists out, err|].
        intros (o & e & Heq & _ & _ & He). by inversion Heq; subst.
      * eexists. split; [reflexivity|]. apply truthy_empty in Herr.
        split; [discriminate|].
        intros (o & e & Heq & _ & Hne & _). by inversion Heq; subst.
  - eexists. split; [reflexivity|]. split; [discriminate|].
    intros (o & e & Heq & _). discriminate Heq.
  - eexists. split; [reflexivity|]. split; [discriminate|].
    intros (o & e & Heq & _). discriminate Heq.
Qed.

(** ** A conversation id that cannot be converted to a string *)

(** X15.  A message whose conversation id is an object with an own
    [toString] property is acknowledged with [ok] and then dropped:
    [getSessionId] throws inside the asynchronous part, whose rejection
    nobody handles; no session is created, the agent is not started and
    nothing is sent to DingTalk. *)
Theorem unconvertible_chat_dropped (cfg : config) (now : Z) (srv : server)
    (req : request) (m : message) (fields : list (string * jsval)) :
  accepted cfg req m →
  chatId m = JObj fields →
  has_field "toString" fields = true →
  let r := step cfg now srv (Request req) in
  sessions r.1 = sessions srv
  ∧ r.2 = [Response (next_id srv) 200 (json_status "ok");
           UnhandledRejection (next_id srv) TypeError]
  ∧ suspended r.1 (next_id srv) = false.
Proof.
  intros Hacc Hchat Hfield r. subst r.
  rewrite (step_accepted cfg now srv req m Hacc).
  unfold process_message, getSessionId. rewrite Hchat. simpl.
  rewrite Hfield. simpl. split; [reflexivity|]. split; [reflexivity|].
  unfold suspended. simpl. by rewrite lookup_delete_eq.
Qed.

Lemma unconvertible_chat_dropped_witness :
  let r := step Sample.cfg 0 initial (Request Sample.odd_chat) in
  sessions r.1 = ∅
  ∧ r.2 = [Response 0 200 (json_status "ok"); UnhandledRejection 0 TypeError]
  ∧ suspended r.1 0 = false.
Proof.
  apply (unconvertible_chat_dropped Sample.cfg 0 initial Sample.odd_chat
           Sample.odd_chat_message [("toString", JNum 1)]); reflexivity.
Defined.

(** ** The agent command line, read back *)

(** X16.  For a message without a backslash (and without [$] and
    backquote) the shell reads the [--message] argument back as the message
    itself: the escaping of the double quotes is undone by the shell, and
    what follows the argument is what the template wrote. *)
Theorem shell_reads_message_back (message rest : string) :
  has_backslash message = false →
  has_expansion message = false →
  sh_dquote_read
    (JsString.replace_dquote message +:+ String JsString.dquote rest)
  = Some (message, rest).
Proof.
  intros Hno _. induction message as [|c t IH]; [reflexivity|].
  unfold has_backslash in Hno. simpl in Hno.
  apply orb_false_iff in Hno as [Hc Ht]. specialize (IH Ht).
  simpl. destruct (Ascii.eqb c JsString.dquote) eqn:Hq.
  - apply Ascii.eqb_eq in Hq. subst c.
    rewrite !append_cons. simpl. rewrite IH. reflexivity.
  - rewrite append_cons. simpl. rewrite Hq, Hc, IH. reflexivity.
Qed.

Lemma shell_reads_message_back_witness :
  sh_dquote_read (quoted_tail Sample.quoted)
  = Some (Sample.quoted, " --timeout 120").
Proof.
  apply (shell_reads_message_back Sample.quoted " --timeout 120"); reflexivity.
Defined.

(** ** The steps of the server, one by one *)

Lemma step_request_throw (cfg : config) (now : Z) (srv : server)
    (req : request) (m : message) (e : js_error) :
  accepted cfg req m →
  getSessionId (chatId m) (userId m) = Throw e →
  step cfg now srv (Request req)
  = ({| sessions := sessions srv; tasks := delete (next_id srv) (tasks srv);
        next_id := S (next_id srv) |},
     [Response (next_id srv) 200 (json_status "ok");
      UnhandledRejection (next_id srv) e]).
Proof.
  intros Hacc Hsid. rewrite (step_accepted cfg now srv req m Hacc).
  unfold process_message. rewrite Hsid. reflexivity.
Qed.

Lemma step_request_free (cfg : config) (now : Z) (srv : server)
    (req : request) (m : message) (sid : string) :
  accepted cfg req m →
  getSessionId (chatId m) (userId m) = Normal sid →
  sessions srv !! sid = None →
  ∃ k,
    step cfg now srv (Request req)
    = ({| sessions := <[sid := {| lastActivity := now; processing := true |}]>
                        (sessions srv);
          tasks := <[next_id srv
                     := OnExec (agent_command cfg (content m)) 130000 k]>
                     (tasks srv);
          next_id := S (next_id srv) |},
       [Response (next_id srv) 200 (json_status "ok");
        ExecCall (next_id srv) (agent_command cfg (content m)) 130000])
    ∧ holds cfg sid (OnExec (agent_command cfg (content m)) 130000 k).
Proof.
  intros Hacc Hsid Hfree. rewrite (step_accepted cfg now srv req m Hacc).
  destruct (run_process_message_free cfg now (sessions srv) m sid Hsid Hfree)
    as (k & Hrun & Hk).
  exists k. rewrite Hrun. split; [reflexivity|].
  intros r. destruct (Hk r) as (c & _ & Hd). eauto.
Qed.

Lemma step_request_busy (cfg : config) (now : Z) (srv : server)
    (req : request) (m : message) (sid : string) :
  accepted cfg req m →
  getSessionId (chatId m) (userId m) = Normal sid →
  is_Some (sessions srv !! sid) →
  (JsString.truthy (dingtalkWebhookUrl cfg) = true
   ∧ ∃ k,
       step cfg now srv (Request req)
       = ({| sessions := sessions srv;
             tasks := <[next_id srv
                        := OnPost (dingtalkWebhookUrl cfg)
                             (text_payload "请稍候，我正在思考...") k]>
                        (tasks srv);
             next_id := S (next_id srv) |},
          [Response (next_id srv) 200 (json_status "ok");
           PostCall (next_id srv) (dingtalkWebhookUrl cfg)
             (text_payload "请稍候，我正在思考...")])
       ∧ notice_only (OnPost (dingtalkWebhookUrl cfg)
                        (text_payload "请稍候，我正在思考...") k))
  ∨ (JsString.truthy (dingtalkWebhookUrl cfg) = false
     ∧ step cfg now srv (Request req)
       = ({| sessions := sessions srv;
             tasks := delete (next_id srv) (tasks srv);
             next_id := S (next_id srv) |},
          [Response (next_id srv) 200 (json_status "ok")])).
Proof.
  intros Hacc Hsid Hbusy. rewrite (step_accepted cfg now srv req m Hacc).
  pose proof (run_process_message_busy cfg now (sessions srv) m sid Hsid Hbusy)
    as Hrun.
  destruct (JsString.truthy (dingtalkWebhookUrl cfg)).
  - left. split; [reflexivity|]. destruct Hrun as (k & Hrun & Hk).
    exists k. rewrite Hrun. split; [reflexivity|].
    exists (dingtalkWebhookUrl cfg), k. split; [reflexivity | exact Hk].
  - right. split; [reflexivity|]. rewrite Hrun. reflexivity.
Qed.

Lemma step_exec_holder (cfg : config) (now : Z) (srv : server) (id : nat)
    (cmd : string) (timeout : Z) (k : exec_result → io (completion unit))
    (sid : string) (res : exec_result) :
  tasks srv !! id = Some (OnExec cmd timeout k) →
  holds cfg sid (OnExec cmd timeout k) →
  (JsString.truthy (dingtalkWebhookUrl cfg) = true
   ∧ ∃ text k',
       step cfg now srv (ExecSettled id res)
       = ({| sessions := sessions srv;
             tasks := <[id := OnPost (dingtalkWebhookUrl cfg)
                                (text_payload text) k']>
                        (tasks srv);
             next_id := next_id srv |},
          [PostCall id (dingtalkWebhookUrl cfg) (text_payload text)])
       ∧ holds cfg sid (OnPost (dingtalkWebhookUrl cfg) (text_payload text) k'))
  ∨ (JsString.truthy (dingtalkWebhookUrl cfg) = false
     ∧ step cfg now srv (ExecSettled id res)
       = ({| sessions := delete sid (sessions srv);
             tasks := delete id (tasks srv);
             next_id := next_id srv |}, [])).
Proof.
  intros Hid Hh. rewrite (step_exec_settled cfg now srv id cmd timeout k res Hid).
  destruct (Hh res) as [text Hd]. specialize (Hd now (sessions srv)).
  destruct (JsString.truthy (dingtalkWebhookUrl cfg)).
  - left. split; [reflexivity|]. destruct Hd as (k' & Hrun & Hk').
    exists text, k'. rewrite Hrun. split; [reflexivity | exact Hk'].
  - right. split; [reflexivity|]. rewrite Hd. reflexivity.
Qed.

Lemma step_post_holder (cfg : config) (now : Z) (srv : server) (id : nat)
    (url : string) (payload : jsval) (k : post_result → io (completion unit))
    (sid : string) (pr : post_result) :
  tasks srv !! id = Some (OnPost url payload k) →
  holds cfg sid (OnPost url payload k) →
  step cfg now srv (PostSettled id pr)
  = ({| sessions := delete sid (sessions srv); tasks := delete id (tasks srv);
        next_id := next_id srv |}, []).
Proof.
  intros Hid Hh. rewrite (step_post_settled cfg now srv id url payload k pr Hid).
  rewrite (Hh pr now (sessions srv)). reflexivity.
Qed.

Lemma step_post_notice (cfg : config) (now : Z) (srv : server) (id : nat)
    (w : pending (completion unit)) (pr : post_result) :
  tasks srv !! id = Some w →
  notice_only w →
  step cfg now srv (PostSettled id pr)
  = ({| sessions := sessions srv; tasks := delete id (tasks srv);
        next_id := next_id srv |}, []).
Proof.
  intros Hid (url & k & -> & Hk).
  rewrite (step_post_settled cfg now srv id url _ k pr Hid).
  rewrite (Hk pr now (sessions srv)). reflexivity.
Qed.

(** ** Who holds a session *)

Lemma delete_fixes_nothing (sid : string) :
  delete sid ({[sid := {| lastActivity := 0; processing := true |}]}
              : sessions_map)
  ≠ {[sid := {| lastActivity := 0; processing := true |}]}.
Proof.
  intros Heq. apply (f_equal (λ m : sessions_map, m !! sid)) in Heq.
  rewrite lookup_delete_eq, lookup_singleton_eq in Heq. discriminate Heq.
Qed.

Lemma releases_unique (sid sid' : string) (p : io (completion unit)) :
  releases sid p → releases sid' p → sid = sid'.
Proof.
  intros H1 H2.
  specialize (H1 0%Z {[sid := {| lastActivity := 0; processing := true |}]}).
  specialize (H2 0%Z {[sid := {| lastActivity := 0; processing := true |}]}).
  rewrite H1 in H2. apply (f_equal fst) in H2. cbn [fst] in H2.
  destruct (decide (sid = sid')) as [|Hne]; [assumption|].
  apply (f_equal (λ m : sessions_map, m !! sid)) in H2. rename H2 into Heq.
  rewrite lookup_delete_eq, lookup_delete_ne, lookup_singleton_eq in Heq by done.
  discriminate Heq.
Qed.

(** A suspended part holds one session at most. *)
Lemma holds_unique (cfg : config) (sid sid' : string)
    (w : pending (completion unit)) :
  holds cfg sid w → holds cfg sid' w → sid = sid'.
Proof.
  destruct w as [cmd t k | url payload k]; simpl; intros H1 H2.
  - destruct (H1 (ExecRejected true "")) as [text1 Hd1].
    destruct (H2 (ExecRejected true "")) as [text2 Hd2].
    specialize (Hd1 0%Z {[sid := {| lastActivity := 0; processing := true |}]}).
    specialize (Hd2 0%Z {[sid := {| lastActivity := 0; processing := true |}]}).
    destruct (JsString.truthy (dingtalkWebhookUrl cfg)).
    + destruct Hd1 as (k1 & Hr1 & Hk1). destruct Hd2 as (k2 & Hr2 & Hk2).
      rewrite Hr1 in Hr2. apply (f_equal snd) in Hr2. cbn [snd] in Hr2.
      inversion Hr2; subst k2.
      exact (releases_unique sid sid' _ (Hk1 PostResolved) (Hk2 PostResolved)).
    + rewrite Hd1 in Hd2. apply (f_equal fst) in Hd2. cbn [fst] in Hd2.
      rename Hd2 into Heq.
      destruct (decide (sid = sid')) as [|Hne]; [assumption|].
      apply (f_equal (λ m : sessions_map, m !! sid)) in Heq.
      rewrite lookup_delete_eq, lookup_delete_ne, lookup_singleton_eq in Heq
        by done.
      discriminate Heq.
  - exact (releases_unique sid sid' _ (H1 PostResolved) (H2 PostResolved)).
Qed.

(** The post of a notice holds none. *)
Lemma holds_not_notice (cfg : config) (sid : string)
    (w : pending (completion unit)) :
  holds cfg sid w → notice_only w → False.
Proof.
  intros Hh (url & k & -> & Hk). simpl in Hh.
  specialize (Hh PostResolved 0%Z
                {[sid := {| lastActivity := 0; processing := true |}]}).
  rewrite Hk in Hh. apply (f_equal fst) in Hh. cbn [fst] in Hh.
  symmetry in Hh. exact (delete_fixes_nothing sid Hh).
Qed.

(** ** Every step is a turn *)

Lemma well_formed_fresh (cfg : config) (srv : server) :
  well_formed cfg srv → tasks srv !! next_id srv = None.
Proof. intros [_ Hf]. by apply Hf. Qed.

Lemma step_turn (cfg : config) (now : Z) (srv : server) (i : input) :
  well_formed cfg srv →
  ∃ kind, turn cfg srv (step cfg now srv i).1 kind (step cfg now srv i).2
          ∧ (kind = Swept → i = Timer).
Proof.
  intros Hwf. pose proof (well_formed_fresh cfg srv Hwf) as Hfresh.
  destruct i as [req | id res | id pr |].
  - destruct (webhook_shape cfg req) as [(st & body & Hw) | (m & Hacc)].
    { exists Answered. split; [|discriminate].
      unfold step. rewrite Hw. simpl. by constructor. }
    destruct (getSessionId (chatId m) (userId m)) as [sid|e] eqn:Hsid.
    + destruct (sessions srv !! sid) as [s|] eqn:Hs.
      * destruct (step_request_busy cfg now srv req m sid Hacc Hsid)
          as [(Hurl & k & Hstep & Hn) | (Hurl & Hstep)]; [eauto|..].
        -- exists Noticed. split; [|discriminate]. rewrite Hstep. simpl.
           apply (turn_notice _ _ _ sid (dingtalkWebhookUrl cfg) k); eauto.
        -- exists Noticed. split; [|discriminate]. rewrite Hstep. simpl.
           apply (turn_notice_unsent _ _ _ sid); eauto.
           simpl. by apply delete_id.
      * destruct (step_request_free cfg now srv req m sid Hacc Hsid Hs)
          as (k & Hstep & Hk).
        exists Acquired. split; [|discriminate]. rewrite Hstep. simpl.
        by apply (turn_acquire _ _ _ sid _
                    {| lastActivity := now; processing := true |} k).
    + exists Dropped. split; [|discriminate].
      rewrite (step_request_throw cfg now srv req m e Hacc Hsid). simpl.
      constructor; simpl; [reflexivity | by apply delete_id | reflexivity].
  - destruct (tasks srv !! id) as [[cmd t k | url payload k]|] eqn:Hid.
    + destruct Hwf as [Hw _]. destruct (Hw id _ Hid) as [Hn | [sid Hh]].
      { destruct Hn as (url & k' & Heq & _). discriminate Heq. }
      destruct (step_exec_holder cfg now srv id cmd t k sid res Hid Hh)
        as [(Hurl & text & k' & Hstep & Hk') | (Hurl & Hstep)].
      * exists Delivering. split; [|discriminate]. rewrite Hstep.
        cbn [fst snd].
        by apply (turn_deliver _ _ _ id sid cmd t k _ (text_payload text) k').
      * exists Released. split; [|discriminate]. rewrite Hstep. simpl.
        by apply (turn_release _ _ _ id sid (OnExec cmd t k)).
    + exists Idle. split; [|discriminate]. unfold step. rewrite Hid.
      by constructor.
    + exists Idle. split; [|discriminate]. unfold step. rewrite Hid.
      by constructor.
  - destruct (tasks srv !! id) as [[cmd t k | url payload k]|] eqn:Hid.
    + exists Idle. split; [|discriminate]. unfold step. rewrite Hid.
      by constructor.
    + destruct Hwf as [Hw _]. destruct (Hw id _ Hid) as [Hn | [sid Hh]].
      * exists NoticeDone. split; [|discriminate].
        rewrite (step_post_notice cfg now srv id _ pr Hid Hn). simpl.
        by apply (turn_notice_done _ _ _ id (OnPost url payload k)).
      * exists Released. split; [|discriminate].
        rewrite (step_post_holder cfg now srv id url payload k sid pr Hid Hh).
        simpl. by apply (turn_release _ _ _ id sid (OnPost url payload k)).
    + exists Idle. split; [|discriminate]. unfold step. rewrite Hid.
      by constructor.
  - exists Swept. split; [|reflexivity]. unfold step. cbn [fst snd].
    constructor; cbn [sessions tasks next_id]; try reflexivity.
    intros sid e. rewrite lookup_cleanupSessions.
    destruct (sessions srv !! sid) as [e'|]; [|discriminate].
    by destruct (expired cfg now e').
Qed.

Lemma turn_well_formed (cfg : config) (srv srv' : server) (kind : turn_kind)
    (evs : list event) :
  well_formed cfg srv → turn cfg srv srv' kind evs → well_formed cfg srv'.
Proof.
  intros [Hw Hf] Hturn.
  assert (∀ id w, tasks srv !! id = Some w → id < next_id srv) as Hlt.
  { intros id w Hid. destruct (decide (id < next_id srv)) as [|Hge]; [done|].
    rewrite Hf in Hid by lia. discriminate Hid. }
  destruct Hturn as
    [st body Hs Ht Hn | e Hs Ht Hn | sid url k Hb Hno Hs Ht Hn
     | sid Hb Hs Ht Hn | sid cmd s k Hfree Hh Hs Ht Hn
     | id sid cmd t k url payload k' Hid Hh Hh' Hs Ht Hn
     | id sid w Hid Hh Hs Ht Hn | id w Hid Hno Hs Ht Hn
     | Hsub Ht Hn | Hs Ht Hn];
    split; rewrite ?Ht, ?Hn.
  all: try (intros id0 w0 H0; by eapply Hw).
  all: try (intros id0 Hge; apply Hf; lia).
  - intros id0 w0 H0. destruct (decide (id0 = next_id srv)) as [->|Hne].
    + rewrite lookup_insert_eq in H0. inversion H0; subst w0. by left.
    + rewrite lookup_insert_ne in H0 by done. by eapply Hw.
  - intros id0 Hge. rewrite lookup_insert_ne by lia. apply Hf. lia.
  - intros id0 w0 H0. destruct (decide (id0 = next_id srv)) as [->|Hne].
    + rewrite lookup_insert_eq in H0. inversion H0; subst w0. right. eauto.
    + rewrite lookup_insert_ne in H0 by done. by eapply Hw.
  - intros id0 Hge. rewrite lookup_insert_ne by lia. apply Hf. lia.
  - intros id0 w0 H0. destruct (decide (id0 = id)) as [->|Hne].
    + rewrite lookup_insert_eq in H0. inversion H0; subst w0. right. eauto.
    + rewrite lookup_insert_ne in H0 by done. by eapply Hw.
  - intros id0 Hge. apply Hlt in Hid. rewrite lookup_insert_ne by lia.
    apply Hf. lia.
  - intros id0 w0 H0. apply lookup_delete_Some in H0 as [_ H0]. by eapply Hw.
  - intros id0 Hge. apply lookup_delete_None. right. apply Hf. lia.
  - intros id0 w0 H0. apply lookup_delete_Some in H0 as [_ H0]. by eapply Hw.
  - intros id0 Hge. apply lookup_delete_None. right. apply Hf. lia.
Qed.

Lemma initial_well_formed (cfg : config) : well_formed cfg initial.
Proof. split; [intros id w H; discriminate H | reflexivity]. Qed.

(** An invariant of the turns is an invariant of the runs. *)
Lemma steps_invariant (cfg : config) (I : server → Prop) :
  (∀ srv srv' kind evs,
     well_formed cfg srv → I srv → turn cfg srv srv' kind evs → I srv') →
  ∀ l srv, well_formed cfg srv → I srv →
    well_formed cfg (steps cfg srv l).1 ∧ I (steps cfg srv l).1.
Proof.
  intros Hstep l. induction l as [|[now i] l IH]; intros srv Hwf HI;
    [by split|].
  rewrite steps_cons. cbn [fst].
  destruct (step_turn cfg now srv i Hwf) as (kind & Hturn & _).
  apply IH; [by eapply turn_well_formed | by eapply Hstep].
Qed.

(** ** No session entry without a holder *)

Lemma turn_entries_held (cfg : config) (srv srv' : server) (kind : turn_kind)
    (evs : list event) :
  well_formed cfg srv → entries_held cfg srv → turn cfg srv srv' kind evs →
  entries_held cfg srv'.
Proof.
  intros Hwf He Hturn. pose proof (well_formed_fresh cfg srv Hwf) as Hfresh.
  destruct Hturn as
    [st body Hs Ht Hn | e Hs Ht Hn | sid url k Hb Hno Hs Ht Hn
     | sid Hb Hs Ht Hn | sid cmd s k Hfree Hh Hs Ht Hn
     | id sid cmd t k url payload k' Hid Hh Hh' Hs Ht Hn
     | id sid w Hid Hh Hs Ht Hn | id w Hid Hno Hs Ht Hn
     | Hsub Ht Hn | Hs Ht Hn];
    intros sid0 Hsome; rewrite ?Hs in Hsome; rewrite Ht.
  - exact (He sid0 Hsome).
  - exact (He sid0 Hsome).
  - destruct (He sid0 Hsome) as (id0 & w0 & H0 & Hh0). exists id0, w0.
    rewrite lookup_insert_ne by congruence. auto.
  - exact (He sid0 Hsome).
  - destruct (decide (sid0 = sid)) as [->|Hne].
    + eexists _, _. rewrite lookup_insert_eq. eauto.
    + rewrite lookup_insert_ne in Hsome by done.
      destruct (He sid0 Hsome) as (id0 & w0 & H0 & Hh0). exists id0, w0.
      rewrite lookup_insert_ne by congruence. auto.
  - destruct (He sid0 Hsome) as (id0 & w0 & H0 & Hh0).
    destruct (decide (id0 = id)) as [->|Hne].
    + rewrite Hid in H0. inversion H0; subst w0.
      rewrite (holds_unique cfg sid0 sid _ Hh0 Hh).
      eexists _, _. rewrite lookup_insert_eq. eauto.
    + exists id0, w0. rewrite lookup_insert_ne by done. auto.
  - apply lookup_delete_is_Some in Hsome as [Hne Hsome].
    destruct (He sid0 Hsome) as (id0 & w0 & H0 & Hh0). exists id0, w0.
    split; [|exact Hh0]. apply lookup_delete_Some. split; [|exact H0].
    intros ->. rewrite Hid in H0. inversion H0; subst w0.
    apply Hne. exact (holds_unique cfg sid sid0 _ Hh Hh0).
  - destruct (He sid0 Hsome) as (id0 & w0 & H0 & Hh0). exists id0, w0.
    split; [|exact Hh0]. apply lookup_delete_Some. split; [|exact H0].
    intros ->. rewrite Hid in H0. inversion H0; subst w0.
    exact (holds_not_notice cfg sid0 _ Hh0 Hno).
  - destruct Hsome as [e Hsome]. apply Hsub in Hsome.
    apply (He sid0). eauto.
  - exact (He sid0 Hsome).
Qed.

Lemma size_le_by_owner {A B : Type} (m : gmap string A) (t : gmap nat B)
    (R : string → nat → Prop) :
  (∀ s, is_Some (m !! s) → ∃ id, is_Some (t !! id) ∧ R s id) →
  (∀ s s' id, R s id → R s' id → s = s') →
  size m ≤ size t.
Proof.
  revert t. induction m as [|s a m Hs IH] using map_ind; intros t Hown Hinj.
  - rewrite map_size_empty. lia.
  - destruct (Hown s) as (id & [b Hid] & HR); [rewrite lookup_insert_eq; eauto|].
    rewrite map_size_insert_None by exact Hs.
    rewrite <- (insert_delete_id t id b Hid).
    rewrite map_size_insert_None by apply lookup_delete_eq.
    apply le_n_S, IH; [|exact Hinj].
    intros s' Hs'.
    assert (s' ≠ s) as Hne by (intros ->; rewrite Hs in Hs'; by destruct Hs').
    destruct (Hown s') as (id' & Hid' & HR');
      [by rewrite lookup_insert_ne|].
    exists id'. split; [|exact HR'].
    apply lookup_delete_is_Some. split; [|exact Hid'].
    intros ->. apply Hne. by eapply Hinj.
Qed.

Lemma reachable_entries_held (cfg : config) (l : list (Z * input)) :
  well_formed cfg (steps cfg initial l).1
  ∧ entries_held cfg (steps cfg initial l).1.
Proof.
  apply (steps_invariant cfg (entries_held cfg)).
  - intros s s' kind evs Hwf HI Hturn. by eapply turn_entries_held.
  - apply initial_well_formed.
  - intros sid [e He]. discriminate He.
Qed.

(** X17.  In every run of the server from its initial state, whatever
    arrives, however the agent and the posts settle and whenever the timer
    fires, every entry of the session map is held by a suspended
    asynchronous part that will release it: no entry is left behind by a
    message that ended.  So there are at most as many entries as suspended
    parts, and the [sessions] number of the status endpoint is bounded by
    the messages in progress (zero when there is none). *)
Theorem sessions_have_owners (cfg : config) (l : list (Z * input)) :
  let srv := (steps cfg initial l).1 in
  entries_held cfg srv
  ∧ size (sessions srv) ≤ size (tasks srv)
  ∧ ∃ n body, status_route cfg srv = Respond 200 body
            ∧ field body "sessions" = JNum (Z.of_nat n)
            ∧ n ≤ size (tasks srv).
Proof.
  intros srv. destruct (reachable_entries_held cfg l) as [_ He]. fold srv in He.
  assert (size (sessions srv) ≤ size (tasks srv)) as Hsize.
  { apply (size_le_by_owner _ _
             (λ sid id, ∃ w, tasks srv !! id = Some w ∧ holds cfg sid w)).
    - intros sid Hsid. destruct (He sid Hsid) as (id & w & Hid & Hh).
      exists id. eauto.
    - intros s s' id (w & Hw & Hh) (w' & Hw' & Hh').
      rewrite Hw in Hw'. inversion Hw'; subst w'.
      by eapply holds_unique. }
  split; [exact He|]. split; [exact Hsize|].
  eexists _, _. split; [reflexivity|]. split; [reflexivity | exact Hsize].
Qed.

(** ** One holder per session, between two sweeps *)

Lemma turn_exclusive (cfg : config) (srv srv' : server) (kind : turn_kind)
    (evs : list event) :
  well_formed cfg srv → exclusive cfg srv → turn cfg srv srv' kind evs →
  kind ≠ Swept → exclusive cfg srv'.
Proof.
  intros Hwf [HA HB] Hturn Hkind.
  pose proof (well_formed_fresh cfg srv Hwf) as Hfresh.
  destruct Hturn as
    [st body Hs Ht Hn | e Hs Ht Hn | sid url k Hb Hno Hs Ht Hn
     | sid Hb Hs Ht Hn | sid cmd s k Hfree Hh Hs Ht Hn
     | id sid cmd t k url payload k' Hid Hh Hh' Hs Ht Hn
     | id sid w Hid Hh Hs Ht Hn | id w Hid Hno Hs Ht Hn
     | Hsub Ht Hn | Hs Ht Hn];
    try (by destruct Hkind);
    (split; [intros sid0 id0 w0 | intros sid0 id1 id2 w1 w2]);
    rewrite ?Hs, Ht.
  - apply HA.
  - apply HB.
  - apply HA.
  - apply HB.
  - intros H0 Hh0. destruct (decide (id0 = next_id srv)) as [->|Hne].
    + rewrite lookup_insert_eq in H0. inversion H0; subst w0.
      destruct (holds_not_notice cfg sid0 _ Hh0 Hno).
    + rewrite lookup_insert_ne in H0 by done. by eapply HA.
  - intros H1 H2 Hh1 Hh2.
    destruct (decide (id1 = next_id srv)) as [->|Hne1].
    { rewrite lookup_insert_eq in H1. inversion H1; subst w1.
      destruct (holds_not_notice cfg sid0 _ Hh1 Hno). }
    destruct (decide (id2 = next_id srv)) as [->|Hne2].
    { rewrite lookup_insert_eq in H2. inversion H2; subst w2.
      destruct (holds_not_notice cfg sid0 _ Hh2 Hno). }
    rewrite lookup_insert_ne in H1, H2 by done. by eapply HB.
  - apply HA.
  - apply HB.
  - intros H0 Hh0. destruct (decide (id0 = next_id srv)) as [->|Hne].
    + rewrite lookup_insert_eq in H0. inversion H0; subst w0.
      rewrite (holds_unique cfg sid0 sid _ Hh0 Hh), lookup_insert_eq. eauto.
    + rewrite lookup_insert_ne in H0 by done.
      apply lookup_insert_is_Some'. right. by eapply HA.
  - intros H1 H2 Hh1 Hh2.
    destruct (decide (id1 = next_id srv)) as [->|Hne1];
      destruct (decide (id2 = next_id srv)) as [->|Hne2]; [reflexivity|..].
    + rewrite lookup_insert_eq in H1. inversion H1; subst w1.
      rewrite lookup_insert_ne in H2 by done.
      pose proof (holds_unique cfg sid0 sid _ Hh1 Hh) as ->.
      destruct (HA sid id2 w2 H2 Hh2) as [x Hx]. congruence.
    + rewrite lookup_insert_eq in H2. inversion H2; subst w2.
      rewrite lookup_insert_ne in H1 by done.
      pose proof (holds_unique cfg sid0 sid _ Hh2 Hh) as ->.
      destruct (HA sid id1 w1 H1 Hh1) as [x Hx]. congruence.
    + rewrite lookup_insert_ne in H1, H2 by done. by eapply HB.
  - intros H0 Hh0. destruct (decide (id0 = id)) as [->|Hne].
    + rewrite lookup_insert_eq in H0. inversion H0; subst w0.
      rewrite (holds_unique cfg sid0 sid _ Hh0 Hh'). by eapply HA.
    + rewrite lookup_insert_ne in H0 by done. by eapply HA.
  - intros H1 H2 Hh1 Hh2.
    destruct (decide (id1 = id)) as [->|Hne1];
      destruct (decide (id2 = id)) as [->|Hne2]; [reflexivity|..].
    + rewrite lookup_insert_eq in H1. inversion H1; subst w1.
      rewrite lookup_insert_ne in H2 by done.
      pose proof (holds_unique cfg sid0 sid _ Hh1 Hh') as ->.
      exact (HB sid id id2 _ w2 Hid H2 Hh Hh2).
    + rewrite lookup_insert_eq in H2. inversion H2; subst w2.
      rewrite lookup_insert_ne in H1 by done.
      pose proof (holds_unique cfg sid0 sid _ Hh2 Hh') as ->.
      exact (HB sid id1 id w1 _ H1 Hid Hh1 Hh).
    + rewrite lookup_insert_ne in H1, H2 by done. by eapply HB.
  - intros H0 Hh0. apply lookup_delete_Some in H0 as [Hne H0].
    apply lookup_delete_is_Some. split; [|by eapply HA].
    intros ->. apply Hne. exact (HB sid0 id id0 w w0 Hid H0 Hh Hh0).
  - intros H1 H2 Hh1 Hh2.
    apply lookup_delete_Some in H1 as [_ H1].
    apply lookup_delete_Some in H2 as [_ H2]. by eapply HB.
  - intros H0 Hh0. apply lookup_delete_Some in H0 as [_ H0]. by eapply HA.
  - intros H1 H2 Hh1 Hh2.
    apply lookup_delete_Some in H1 as [_ H1].
    apply lookup_delete_Some in H2 as [_ H2]. by eapply HB.
  - apply HA.
  - apply HB.
Qed.

(** X18.  In a run in which no sweep removes an entry (the timer may fire),
    a session is held by at most one suspended asynchronous part at any
    time, and what is held has its entry in the session map: two
    invocations of the agent for one session are never in progress
    together. *)
Theorem exclusive_unless_swept (cfg : config) (l : list (Z * input)) :
  sweeps_idle cfg initial l →
  exclusive cfg (steps cfg initial l).1.
Proof.
  assert (∀ l srv, well_formed cfg srv → exclusive cfg srv →
            sweeps_idle cfg srv l → exclusive cfg (steps cfg srv l).1) as Hall.
  { clear l. induction l as [|[now i] l IH]; intros srv Hwf Hex Hl; [exact Hex|].
    rewrite steps_cons. cbn [fst]. destruct Hl as [Hi Hl].
    destruct (step_turn cfg now srv i Hwf) as (kind & Hturn & Hk).
    apply IH; [by eapply turn_well_formed | | exact Hl].
    assert (kind = Swept ∨ kind ≠ Swept) as [->|Hne]
      by (destruct kind; (by left) || (right; discriminate));
      [|by eapply turn_exclusive].
    specialize (Hi (Hk eq_refl)).
    assert (tasks (step cfg now srv i).1 = tasks srv) as Ht
      by (by inversion Hturn).
    destruct Hex as [HA HB]. split.
    - intros sid id w. rewrite Hi, Ht. apply HA.
    - intros sid id1 id2 w1 w2. rewrite Ht. apply HB. }
  apply Hall; [apply initial_well_formed|].
  split.
  - intros sid id w H. discriminate H.
  - intros sid id1 id2 w1 w2 H. discriminate H.
Qed.

Lemma exclusive_unless_swept_witness :
  exclusive Sample.cfg
    (steps Sample.cfg initial
       [(0%Z, Request Sample.hello); (10%Z, Timer);
        (20%Z, Request Sample.hello)]).1.
Proof.
  apply (exclusive_unless_swept Sample.cfg
           [(0%Z, Request Sample.hello); (10%Z, Timer);
            (20%Z, Request Sample.hello)]).
  split; [intros H; discriminate H|].
  split; [intros _; vm_compute; reflexivity|].
  split; [intros H; discriminate H | exact I].
Defined.

(** ** A release that is not the holder's *)

Lemma steps_app (cfg : config) (srv : server) (l1 l2 : list (Z * input)) :
  steps cfg srv (l1 ++ l2)
  = ((steps cfg (steps cfg srv l1).1 l2).1,
     (steps cfg srv l1).2 ++ (steps cfg (steps cfg srv l1).1 l2).2).
Proof.
  revert srv. induction l1 as [|[now i] l1 IH]; intros srv.
  - simpl. by destruct (steps cfg srv l2).
  - rewrite <- app_comm_cons, !steps_cons, IH. cbn [fst snd].
    by rewrite app_assoc.
Qed.

Lemma invocations_app (a b : list event) :
  invocations (a ++ b) = invocations a + invocations b.
Proof. unfold invocations. by rewrite filter_app, length_app. Qed.

(** The asynchronous part that holds [sid], run to its end: the agent
    settles, then the post of the reply (when there is one).  The entry of
    [sid] is deleted whatever it is by then. *)
Lemma holder_finishes (cfg : config) (srv : server) (id : nat) (cmd : string)
    (timeout : Z) (k : exec_result → io (completion unit)) (sid : string)
    (now1 now2 : Z) (res : exec_result) (pr : post_result) :
  tasks srv !! id = Some (OnExec cmd timeout k) →
  holds cfg sid (OnExec cmd timeout k) →
  let r := steps cfg srv [(now1, ExecSettled id res); (now2, PostSettled id pr)] in
  r.1 = {| sessions := delete sid (sessions srv);
           tasks := delete id (tasks srv);
           next_id := next_id srv |}
  ∧ invocations r.2 = 0.
Proof.
  intros Hid Hh r. subst r. rewrite !steps_cons. cbn [steps fst snd].
  destruct (step_exec_holder cfg now1 srv id cmd timeout k sid res Hid Hh)
    as [(_ & text & k' & Hstep & Hk') | (_ & Hstep)]; rewrite Hstep;
    cbn [fst snd].
  - rewrite (step_post_holder cfg now2 _ id (dingtalkWebhookUrl cfg)
               (text_payload text) k' sid pr);
      [|apply lookup_insert_eq | exact Hk'].
    cbn [fst snd sessions tasks next_id].
    by rewrite delete_insert_eq.
  - unfold step. cbn [tasks]. rewrite lookup_delete_eq. cbn [fst snd].
    by split.
Qed.

(** X19.  The release does not check whose entry it deletes.  When the
    timer sweeps the entry of a message whose agent has not settled yet, the
    next message for the session acquires it; the first message then ends
    and deletes the entry of the second, and a third message acquires the
    session while the second is still in progress: two invocations of the
    agent for one session run together. *)
Theorem stale_release_frees_new_holder (cfg : config) (srv : server)
    (reqA reqB reqC : request) (mA mB mC : message) (sid : string)
    (now0 now1 now2 now3 now4 now5 : Z) (res : exec_result)
    (pr : post_result) :
  accepted cfg reqA mA → accepted cfg reqB mB → accepted cfg reqC mC →
  getSessionId (chatId mA) (userId mA) = Normal sid →
  getSessionId (chatId mB) (userId mB) = Normal sid →
  getSessionId (chatId mC) (userId mC) = Normal sid →
  sessions srv !! sid = None →
  (Z.of_N (sessionTimeout cfg) < now1 - now0)%Z →
  let id := next_id srv in
  let r := steps cfg srv
             [(now0, Request reqA); (now1, Timer); (now2, Request reqB);
              (now3, ExecSettled id res); (now4, PostSettled id pr);
              (now5, Request reqC)] in
  invocations r.2 = 3
  ∧ awaiting_agent r.1 (S id) = true
  ∧ awaiting_agent r.1 (S (S id)) = true
  ∧ (∃ w1 w2, tasks r.1 !! S id = Some w1
            ∧ tasks r.1 !! S (S id) = Some w2
            ∧ holds cfg sid w1 ∧ holds cfg sid w2)
  ∧ ¬ exclusive cfg r.1.
Proof.
  intros HaccA HaccB HaccC HsidA HsidB HsidC Hfree Hlate id r.
  assert (invocations r.2 = 3
          ∧ ∃ k1 k2 c1 c2,
              tasks r.1 !! S id = Some (OnExec c1 130000 k1)
              ∧ tasks r.1 !! S (S id) = Some (OnExec c2 130000 k2)
              ∧ holds cfg sid (OnExec c1 130000 k1)
              ∧ holds cfg sid (OnExec c2 130000 k2)) as (Hinv & Htasks).
  { subst r.
    change [(now0, Request reqA); (now1, Timer); (now2, Request reqB);
            (now3, ExecSettled id res); (now4, PostSettled id pr);
            (now5, Request reqC)]
      with ([(now0, Request reqA); (now1, Timer); (now2, Request reqB)]
            ++ [(now3, ExecSettled id res); (now4, PostSettled id pr)]
            ++ [(now5, Request reqC)]).
    rewrite !steps_app.
    (* the first message acquires, the timer sweeps, the second acquires *)
    destruct (step_request_free cfg now0 srv reqA mA sid HaccA HsidA Hfree)
      as (kA & H1 & HkA).
    assert (∃ srv3 kB,
              steps cfg srv
                [(now0, Request reqA); (now1, Timer); (now2, Request reqB)]
              = (srv3,
                 [Response id 200 (json_status "ok");
                  ExecCall id (agent_command cfg (content mA)) 130000;
                  Response (S id) 200 (json_status "ok");
                  ExecCall (S id) (agent_command cfg (content mB)) 130000])
              ∧ tasks srv3
                = <[S id := OnExec (agent_command cfg (content mB)) 130000 kB]>
                    (<[id := OnExec (agent_command cfg (content mA)) 130000 kA]>
                       (tasks srv))
              ∧ next_id srv3 = S (S id)
              ∧ holds cfg sid (OnExec (agent_command cfg (content mB)) 130000 kB))
      as (srv3 & kB & H3 & Ht3 & Hn3 & HkB).
    { rewrite !steps_cons, H1. cbn [steps fst snd].
      set (srv1 := {| sessions := _; tasks := _; next_id := _ |}).
      assert (sessions (step cfg now1 srv1 Timer).1 !! sid = None) as Hswept.
      { unfold step. cbn [fst sessions]. rewrite lookup_cleanupSessions.
        subst srv1. cbn [sessions]. rewrite lookup_insert_eq.
        unfold expired. cbn [lastActivity].
        destruct (Z.gtb_spec (now1 - now0) (Z.of_N (sessionTimeout cfg)));
          [reflexivity | lia]. }
      destruct (step_request_free cfg now2 _ reqB mB sid HaccB HsidB Hswept)
        as (kB & H2 & HkB).
      rewrite H2. cbn [fst snd]. eexists _, kB.
      split; [reflexivity|]. cbn [tasks next_id]. auto. }
    rewrite H3. cbn [fst snd].
    (* the first message ends *)
    destruct (holder_finishes cfg srv3 id (agent_command cfg (content mA))
                130000 kA sid now3 now4 res pr)
      as [H5 Hinv5]; [|exact HkA|].
    { rewrite Ht3, lookup_insert_ne by lia. apply lookup_insert_eq. }
    rewrite H5.
    (* the third message acquires *)
    destruct (step_request_free cfg now5
                {| sessions := delete sid (sessions srv3);
                   tasks := delete id (tasks srv3);
                   next_id := next_id srv3 |} reqC mC sid HaccC HsidC)
      as (kC & H6 & HkC); [apply lookup_delete_eq|].
    rewrite (steps_cons cfg _ now5 (Request reqC) []), H6.
    split.
    - cbn [fst snd]. rewrite !invocations_app, Hinv5. reflexivity.
    - cbn [steps fst snd tasks next_id].
      exists kB, kC, (agent_command cfg (content mB)),
        (agent_command cfg (content mC)).
      rewrite Hn3, Ht3.
      split; [|split; [apply lookup_insert_eq | auto]].
      rewrite lookup_insert_ne, lookup_delete_ne by lia.
      apply lookup_insert_eq. }
  destruct Htasks as (k1 & k2 & c1 & c2 & Ht1 & Ht2 & Hh1 & Hh2).
  split; [exact Hinv|].
  unfold awaiting_agent. rewrite Ht1, Ht2.
  split; [reflexivity|]. split; [reflexivity|].
  split; [eauto 10|].
  intros [_ HB]. pose proof (HB sid _ _ _ _ Ht1 Ht2 Hh1 Hh2). lia.
Qed.

Lemma stale_release_frees_new_holder_witness :
  let r := steps Sample.cfg initial
             [(0%Z, Request Sample.hello); (300001%Z, Timer);
              (300002%Z, Request Sample.hello);
              (300003%Z, ExecSettled 0 (ExecResolved "late" ""));
              (300004%Z, PostSettled 0 PostResolved);
              (300005%Z, Request Sample.hello)] in
  invocations r.2 = 3
  ∧ awaiting_agent r.1 1 = true
  ∧ awaiting_agent r.1 2 = true
  ∧ (∃ w1 w2, tasks r.1 !! 1 = Some w1
            ∧ tasks r.1 !! 2 = Some w2
            ∧ holds Sample.cfg "c1:u1" w1 ∧ holds Sample.cfg "c1:u1" w2)
  ∧ ¬ exclusive Sample.cfg r.1.
Proof.
  apply (stale_release_frees_new_holder Sample.cfg initial
           Sample.hello Sample.hello Sample.hello
           Sample.hello_message Sample.hello_message Sample.hello_message
           "c1:u1" 0 300001 300002 300003 300004 300005
           (ExecResolved "late" "") PostResolved);
    try (apply hello_accepted; reflexivity); try reflexivity.
Defined.

(** ** One response to each request *)

Lemma omap_no_response (l : list event) :
  Forall (λ e, is_response e = false) l → omap response_id l = [].
Proof.
  induction 1 as [|e l He _ IH]; [reflexivity|].
  destruct e; simpl in *; try discriminate; exact IH.
Qed.

Lemma omap_response_cons (id : nat) (st : Z) (body : jsval) (l : list event) :
  omap response_id (Response id st body :: l) = id :: omap response_id l.
Proof. reflexivity. Qed.

Lemma step_responses (cfg : config) (now : Z) (srv : server) (i : input) :
  omap response_id (step cfg now srv i).2
  = (if is_request i then [next_id srv] else [])
  ∧ next_id (step cfg now srv i).1
    = (if is_request i then S (next_id srv) else next_id srv).
Proof.
  destruct i as [req | id res | id pr |]; cbn [is_request].
  - destruct (webhook_shape cfg req) as [(st & body & Hw) | (m & Hacc)].
    + unfold step. rewrite Hw. by split.
    + rewrite (step_accepted cfg now srv req m Hacc). cbn [fst snd].
      rewrite omap_response_cons, omap_no_response by apply settle_no_response.
      split; [reflexivity | apply settle_next_id].
  - unfold step.
    destruct (tasks srv !! id) as [[cmd t k | url payload k]|]; try by split.
    rewrite omap_no_response by apply settle_no_response.
    split; [reflexivity | apply settle_next_id].
  - unfold step.
    destruct (tasks srv !! id) as [[cmd t k | url payload k]|]; try by split.
    rewrite omap_no_response by apply settle_no_response.
    split; [reflexivity | apply settle_next_id].
  - by split.
Qed.

(** X20.  Every request is answered once, in the turn in which it arrives
    and in the order of arrival; nothing else is ever answered: the
    responses of a run are those to its requests, numbered in a row. *)
Theorem responses_in_order (cfg : config) (srv : server)
    (l : list (Z * input)) :
  omap response_id (steps cfg srv l).2
  = seq (next_id srv) (length (filter (λ ti, is_request ti.2 = true) l)).
Proof.
  revert srv. induction l as [|[now i] l IH]; intros srv; [reflexivity|].
  rewrite steps_cons. cbn [snd]. rewrite omap_app, IH.
  destruct (step_responses cfg now srv i) as [-> ->].
  rewrite filter_cons. cbn [snd].
  destruct (is_request i); [|by rewrite decide_False by discriminate].
  by rewrite decide_True by reflexivity.
Qed.

(** ** No request is worked on twice *)

Lemma exec_calls_app (id : nat) (a b : list event) :
  exec_calls id (a ++ b) = exec_calls id a + exec_calls id b.
Proof. unfold exec_calls. by rewrite List.filter_app, length_app. Qed.

Lemma post_calls_app (id : nat) (a b : list event) :
  post_calls id (a ++ b) = post_calls id a + post_calls id b.
Proof. unfold post_calls. by rewrite List.filter_app, length_app. Qed.

Ltac count_turn Hwait :=
  split; [lia|]; split; [lia|]; split; [intros ?; split; lia|];
  let Hw := fresh "Hw" in
  intros Hw; try discriminate Hw; try specialize (Hwait Hw); lia.

Lemma turn_counted (cfg : config) (srv srv' : server) (kind : turn_kind)
    (evs evs0 : list event) :
  well_formed cfg srv → counted srv evs0 → turn cfg srv srv' kind evs →
  counted srv' (evs0 ++ evs).
Proof.
  intros [_ Hf] Hc Hturn id. destruct (Hc id) as (He & Hp & Hnew & Hwait).
  rewrite exec_calls_app, post_calls_app.
  assert (∀ id' w, tasks srv !! id' = Some w → id' < next_id srv) as Hlt.
  { intros id' w Hid. destruct (decide (id' < next_id srv)) as [|Hge]; [done|].
    rewrite Hf in Hid by lia. discriminate Hid. }
  unfold awaiting_agent in *.
  destruct Hturn as
    [st body Hs Ht Hn | e Hs Ht Hn | sid url k Hb Hno Hs Ht Hn
     | sid Hb Hs Ht Hn | sid cmd s k Hfree Hh Hs Ht Hn
     | id0 sid cmd t k url payload k' Hid Hh Hh' Hs Ht Hn
     | id0 sid w Hid Hh Hs Ht Hn | id0 w Hid Hno Hs Ht Hn
     | Hsub Ht Hn | Hs Ht Hn];
    rewrite Ht, Hn; unfold exec_calls, post_calls in *; simpl.
  - count_turn Hwait.
  - count_turn Hwait.
  - destruct (Nat.eqb_spec (next_id srv) id) as [<-|Hne]; simpl.
    + rewrite lookup_insert_eq. count_turn Hwait.
    + rewrite lookup_insert_ne by done. count_turn Hwait.
  - count_turn Hwait.
  - destruct (Nat.eqb_spec (next_id srv) id) as [<-|Hne]; simpl.
    + rewrite lookup_insert_eq. count_turn Hwait.
    + rewrite lookup_insert_ne by done. count_turn Hwait.
  - destruct (Nat.eqb_spec id0 id) as [<-|Hne]; simpl.
    + rewrite Hid in Hwait. specialize (Hwait eq_refl). apply Hlt in Hid.
      rewrite lookup_insert_eq. count_turn Hwait.
    + rewrite lookup_insert_ne by done. count_turn Hwait.
  - destruct (decide (id = id0)) as [->|Hne].
    + rewrite lookup_delete_eq. count_turn Hwait.
    + rewrite lookup_delete_ne by done. count_turn Hwait.
  - destruct (decide (id = id0)) as [->|Hne].
    + rewrite lookup_delete_eq. count_turn Hwait.
    + rewrite lookup_delete_ne by done. count_turn Hwait.
  - count_turn Hwait.
  - count_turn Hwait.
Qed.

Lemma steps_counted (cfg : config) (l : list (Z * input)) (srv : server)
    (evs0 : list event) :
  well_formed cfg srv → counted srv evs0 →
  counted (steps cfg srv l).1 (evs0 ++ (steps cfg srv l).2).
Proof.
  revert srv evs0. induction l as [|[now i] l IH]; intros srv evs0 Hwf Hc.
  - simpl. by rewrite app_nil_r.
  - rewrite steps_cons. cbn [fst snd]. rewrite app_assoc.
    destruct (step_turn cfg now srv i Hwf) as (kind & Hturn & _).
    apply IH; [by eapply turn_well_formed | by eapply turn_counted].
Qed.

(** X21.  In every run of the server from its initial state the agent is
    started at most once for each request, and at most one message is posted
    to DingTalk for it (the notice or the reply), however often the
    environment reports an operation as settled. *)
Theorem one_invocation_per_request (cfg : config) (l : list (Z * input))
    (id : nat) :
  exec_calls id (steps cfg initial l).2 ≤ 1
  ∧ post_calls id (steps cfg initial l).2 ≤ 1.
Proof.
  destruct (steps_counted cfg l initial [] (initial_well_formed cfg)) with id
    as (He & Hp & _).
  - intros id'. unfold exec_calls, post_calls. simpl.
    repeat split; intros; lia.
  - simpl in He, Hp. auto.
Qed.

(** ** The answer with status 500 *)

(** X22.  The handler answers with status 500 in three cases only:
    [req.body] is [null] or [undefined]; or, the signature check passed or
    skipped, the parser throws; or the message passed the keyword filter
    and its sender id cannot be converted to a string for the receipt
    line. *)
Theorem internal_error_iff (cfg : config) (req : request) :
  let body := field (req_body req) "body" in
  webhook_dingtalk cfg req = [Respond 500 (json_error "内部错误")]
  ↔ nullish (req_body req) = true
    ∨ (nullish (req_body req) = false
       ∧ header_truthy (signature_timestamp req)
         && header_truthy (signature req)
         && negb (verifySignature cfg (default "" (signature_timestamp req))
                    (default "" (signature req)) body) = false
       ∧ ((∃ e, parseDingtalkMessage body = Throw e)
          ∨ ∃ m e, parseDingtalkMessage body = Normal (Some m)
                 ∧ JsString.truthy (dingtalkKeyword cfg)
                   && negb (JsString.includes (content m) (dingtalkKeyword cfg))
                   = false
                 ∧ ToString (userId m) = Throw e)).
Proof.
  intros body. unfold webhook_dingtalk, webhook_try.
  destruct (nullish (req_body req)) eqn:Hn.
  { split; [by left|]. intros _.
    destruct (req_body req); try discriminate Hn; reflexivity. }
  rewrite !Get_field by exact Hn. fold body.
  cbn [mbind completion_mbind completion_bind].
  destruct (_ && negb (verifySignature _ _ _ _)) eqn:Hsig.
  { split; [discriminate|]. intros [H | (_ & H & _)]; discriminate H. }
  destruct (parseDingtalkMessage body) as [[m|]|e] eqn:Hparse;
    cbn [mbind completion_mbind completion_bind].
  - destruct (_ && negb (JsString.includes _ _)) eqn:Hkw.
    { split; [discriminate|].
      intros [H | (_ & _ & [[e He] | (m' & e & Hm & Hk & _)])];
        try discriminate.
      inversion Hm; subst m'. congruence. }
    unfold received_log.
    destruct (ToString (userId m)) as [u|e] eqn:Hu;
      cbn [mbind completion_mbind completion_bind].
    + split; [discriminate|].
      intros [H | (_ & _ & [[e He] | (m' & e & Hm & _ & He)])];
        try discriminate.
      inversion Hm; subst m'. congruence.
    + split; [|reflexivity]. intros _. right. split; [reflexivity|].
      split; [reflexivity|]. right. exists m, e. auto.
  - split; [discriminate|].
    intros [H | (_ & _ & [[e He] | (m' & e & Hm & _)])]; discriminate.
  - split; [|reflexivity]. intros _. right. split; [reflexivity|].
    split; [reflexivity|]. left. by exists e.
Qed.

(** ** The keyword filter *)

Lemma prefix_append (k s : string) :
  String.prefix k s = true ↔ ∃ b, s = k +:+ b.
Proof.
  revert s. induction k as [|c k IH]; intros s.
  - split; [intros _; by exists s | by destruct s].
  - destruct s as [|d s]; simpl.
    + split; [discriminate | intros [b Hb]; discriminate Hb].
    + destruct (ascii_dec c d) as [->|Hne].
      * rewrite IH. split; intros [b Hb]; exists b.
        -- rewrite append_cons. by rewrite Hb.
        -- rewrite append_cons in Hb. by inversion Hb.
      * split; [discriminate|]. intros [b Hb]. rewrite append_cons in Hb.
        inversion Hb. congruence.
Qed.

(** X23.  The keyword filter lets a message through exactly when the
    keyword occurs somewhere in its content, in the same case: at the
    start, in the middle or at the end. *)
Theorem keyword_filter_is_substring (s k : string) :
  JsString.includes s k = true ↔ ∃ a b, s = a +:+ k +:+ b.
Proof.
  induction s as [|c s IH].
  - change (JsString.includes "" k) with (String.prefix k "" || false).
    rewrite orb_false_r, prefix_append. split.
    + intros [b Hb]. by exists "", b.
    + intros (a & b & Hab). destruct a as [|x a]; [by exists b|].
      discriminate Hab.
  - change (JsString.includes (String c s) k)
      with (String.prefix k (String c s) || JsString.includes s k).
    rewrite orb_true_iff, IH, (prefix_append k (String c s)). split.
    + intros [[b Hb] | (a & b & Hab)].
      * by exists "", b.
      * exists (String c a), b. rewrite append_cons. by rewrite Hab.
    + intros (a & b & Hab). destruct a as [|x a].
      * left. by exists b.
      * right. rewrite append_cons in Hab. inversion Hab. by exists a, b.
Qed.

(** ** Whether a post succeeded *)

(** X24.  The outcome of a post to DingTalk is never looked at: in every
    state the server can reach, the turn in which a post settles does the
    same whether the post succeeded or failed.  A reply or a notice that
    DingTalk refused is neither sent again nor reported to anyone, and the
    session is released all the same. *)
Theorem delivery_outcome_ignored (cfg : config) (l : list (Z * input))
    (now : Z) (id : nat) (r1 r2 : post_result) :
  step cfg now (steps cfg initial l).1 (PostSettled id r1)
  = step cfg now (steps cfg initial l).1 (PostSettled id r2).
Proof.
  destruct (reachable_entries_held cfg l) as [[Hw _] _].
  destruct (tasks (steps cfg initial l).1 !! id)
    as [[cmd t k | url payload k]|] eqn:Hid.
  - unfold step. by rewrite Hid.
  - destruct (Hw id _ Hid) as [Hn | [sid Hh]].
    + by rewrite !(step_post_notice cfg now _ id _ _ Hid Hn).
    + by rewrite !(step_post_holder cfg now _ id url payload k sid _ Hid Hh).
  - unfold step. by rewrite Hid.
Qed.

(** ** A held session is released when its operations settle *)

(** X25.  No session stays locked for want of a release: in every state
    the server can reach, each entry of the session map belongs to a
    suspended asynchronous part, and once the operations of that part
    settle (the agent, then the post of the reply), in any way and at any
    time, the entry is gone. *)
Theorem held_entry_is_released (cfg : config) (l : list (Z * input))
    (sid : string) :
  let srv := (steps cfg initial l).1 in
  is_Some (sessions srv !! sid) →
  ∃ id, suspended srv id = true
      ∧ ∀ now1 now2 res pr,
          sessions
            (steps cfg srv
               [(now1, ExecSettled id res); (now2, PostSettled id pr)]).1
          !! sid = None.
Proof.
  intros srv Hsid. destruct (reachable_entries_held cfg l) as [_ He].
  destruct (He sid Hsid) as (id & w & Hid & Hh). fold srv in Hid.
  exists id. split; [unfold suspended; by rewrite Hid|].
  intros now1 now2 res pr. destruct w as [cmd t k | url payload k].
  - destruct (holder_finishes cfg srv id cmd t k sid now1 now2 res pr Hid Hh)
      as [-> _].
    apply lookup_delete_eq.
  - rewrite !steps_cons. cbn [steps fst].
    assert (step cfg now1 srv (ExecSettled id res) = (srv, [])) as ->
      by (unfold step; by rewrite Hid).
    cbn [fst].
    rewrite (step_post_holder cfg now2 srv id url payload k sid pr Hid Hh).
    apply lookup_delete_eq.
Qed.

Lemma held_entry_is_released_witness :
  let srv := (steps Sample.cfg initial [(0%Z, Request Sample.hello)]).1 in
  ∃ id, suspended srv id = true
      ∧ ∀ now1 now2 res pr,
          sessions
            (steps Sample.cfg srv
               [(now1, ExecSettled id res); (now2, PostSettled id pr)]).1
          !! "c1:u1" = None.
Proof.
  apply (held_entry_is_released Sample.cfg [(0%Z, Request Sample.hello)]
           "c1:u1").
  exists {| lastActivity := 0; processing := true |}.
  vm_compute. reflexivity.
Defined.

(** ** Where the effects of a run come from *)

(** The agent is started only in the turn of a request, for the message
    of that request; a post goes to the configured URL and carries a
    text. *)
Lemma step_effects (cfg : config) (now : Z) (srv : server) (i : input)
    (e : event) :
  well_formed cfg srv →
  e ∈ (step cfg now srv i).2 →
  match e with
  | ExecCall id cmd timeout =>
      ∃ req m, i = Request req
             ∧ id = next_id srv
             ∧ passes_filters cfg req m
             ∧ cmd = agent_command cfg (content m)
             ∧ timeout = 130000%Z
  | PostCall id url payload =>
      url = dingtalkWebhookUrl cfg
      ∧ JsString.truthy url = true
      ∧ ∃ text, payload = text_payload text
  | _ => True
  end.
Proof.
  intros [Hw _] He. destruct i as [req | id res | id pr |].
  - destruct (webhook_shape cfg req) as [(st & body & Hs) | (m0 & Hacc0)].
    { unfold step in He. rewrite Hs in He. cbn in He.
      apply list_elem_of_singleton in He. by subst e. }
    destruct (spawn_passes_filters cfg req (process_message cfg m0))
      as (m & line & Hpass & _ & Heq).
    { unfold accepted in Hacc0. rewrite Hacc0.
      apply elem_of_cons. right. by apply list_elem_of_singleton. }
    assert (accepted cfg req m) as Hacc
      by (unfold accepted in *; by rewrite Hacc0, Heq).
    destruct (getSessionId (chatId m) (userId m)) as [sid|err] eqn:Hsid.
    + destruct (sessions srv !! sid) as [s|] eqn:Hs.
      * destruct (step_request_busy cfg now srv req m sid Hacc Hsid)
          as [(Hurl & k & Hstep & _) | (_ & Hstep)]; [eauto|..];
          rewrite Hstep in He; cbn [snd] in He;
          repeat (apply elem_of_cons in He as [-> | He]); try exact I;
          try (by apply elem_of_nil in He).
        split; [reflexivity|]. split; [exact Hurl | eauto].
      * destruct (step_request_free cfg now srv req m sid Hacc Hsid Hs)
          as (k & Hstep & _).
        rewrite Hstep in He. cbn [snd] in He.
        repeat (apply elem_of_cons in He as [-> | He]); try exact I;
          try (by apply elem_of_nil in He).
        exists req, m. auto 10.
    + rewrite (step_request_throw cfg now srv req m err Hacc Hsid) in He.
      cbn [snd] in He.
      repeat (apply elem_of_cons in He as [-> | He]); try exact I.
      by apply elem_of_nil in He.
  - destruct (tasks srv !! id) as [[cmd t k | url payload k]|] eqn:Hid.
    + destruct (Hw id _ Hid) as [Hn | [sid Hh]].
      { destruct Hn as (url & k' & Heq & _). discriminate Heq. }
      destruct (step_exec_holder cfg now srv id cmd t k sid res Hid Hh)
        as [(Hurl & text & k' & Hstep & _) | (_ & Hstep)];
        rewrite Hstep in He; cbn [snd] in He.
      * apply list_elem_of_singleton in He. subst e.
        split; [reflexivity|]. split; [exact Hurl | eauto].
      * by apply elem_of_nil in He.
    + unfold step in He. rewrite Hid in He. by apply elem_of_nil in He.
    + unfold step in He. rewrite Hid in He. by apply elem_of_nil in He.
  - destruct (tasks srv !! id) as [[cmd t k | url payload k]|] eqn:Hid.
    + unfold step in He. rewrite Hid in He. by apply elem_of_nil in He.
    + destruct (Hw id _ Hid) as [Hn | [sid Hh]].
      * rewrite (step_post_notice cfg now srv id _ pr Hid Hn) in He.
        by apply elem_of_nil in He.
      * rewrite (step_post_holder cfg now srv id url payload k sid pr Hid Hh)
          in He.
        by apply elem_of_nil in He.
    + unfold step in He. rewrite Hid in He. by apply elem_of_nil in He.
  - by apply elem_of_nil in He.
Qed.

Lemma requests_cons (now : Z) (i : input) (l : list (Z * input)) :
  requests ((now, i) :: l)
  = match i with
    | Request req => req :: requests l
    | _ => requests l
    end.
Proof. by destruct i. Qed.

(** X26.  In every run of the server from its initial state, each start of
    the agent is for a request of the run that passed the signature check,
    the parser and the keyword filter: the command is the one built from the
    content of that request's message, with the timeout of 130 seconds.
    Nothing that settles later and no timer starts the agent. *)
Theorem agent_runs_filtered_messages (cfg : config) (l : list (Z * input))
    (id : nat) (cmd : string) (timeout : Z) :
  ExecCall id cmd timeout ∈ (steps cfg initial l).2 →
  ∃ req m, requests l !! id = Some req
         ∧ passes_filters cfg req m
         ∧ cmd = agent_command cfg (content m)
         ∧ timeout = 130000%Z.
Proof.
  assert (∀ l srv, well_formed cfg srv →
            ExecCall id cmd timeout ∈ (steps cfg srv l).2 →
            ∃ k req m, id = next_id srv + k
                     ∧ requests l !! k = Some req
                     ∧ passes_filters cfg req m
                     ∧ cmd = agent_command cfg (content m)
                     ∧ timeout = 130000%Z) as Hall.
  { clear l. induction l as [|[now i] l IH]; intros srv Hwf Hin.
    { by apply elem_of_nil in Hin. }
    rewrite steps_cons in Hin. cbn [snd] in Hin.
    apply elem_of_app in Hin as [Hin | Hin].
    - destruct (step_effects cfg now srv i _ Hwf Hin)
        as (req & m & -> & -> & Hpass & Hcmd & Ht).
      exists 0, req, m. rewrite requests_cons.
      split; [lia|]. split; [reflexivity | auto].
    - destruct (step_turn cfg now srv i Hwf) as (kind & Hturn & _).
      destruct (IH _ (turn_well_formed cfg _ _ _ _ Hwf Hturn) Hin)
        as (k & req & m & Hid & Hreq & Hrest).
      destruct (step_responses cfg now srv i) as [_ Hn]. rewrite Hn in Hid.
      rewrite requests_cons.
      destruct i as [req' | | |]; cbn [is_request] in Hid;
        [exists (S k), req, m | exists k, req, m..];
        (split; [lia|]); by split. }
  intros Hin.
  destruct (Hall l initial (initial_well_formed cfg) Hin)
    as (k & req & m & Hid & Hrest).
  simpl in Hid. subst k. eauto.
Qed.

Lemma agent_runs_filtered_messages_witness :
  ∃ req m, requests [(0%Z, Request Sample.hello)] !! 0 = Some req
         ∧ passes_filters Sample.cfg req m
         ∧ agent_command Sample.cfg "Moltbot hello"
           = agent_command Sample.cfg (content m)
         ∧ 130000%Z = 130000%Z.
Proof.
  apply (agent_runs_filtered_messages Sample.cfg
           [(0%Z, Request Sample.hello)] 0
           (agent_command Sample.cfg "Moltbot hello") 130000).
  assert ((steps Sample.cfg initial [(0%Z, Request Sample.hello)]).2
          = [Response 0 200 (json_status "ok");
             ExecCall 0 (agent_command Sample.cfg "Moltbot hello") 130000])
    as -> by (vm_compute; reflexivity).
  apply elem_of_cons. right. by apply list_elem_of_singleton.
Defined.

(** X27.  In every run of the server from its initial state, every post
    goes to the configured webhook URL, which is then not empty, and carries
    a text message; with no URL configured nothing is ever posted. *)
Theorem posts_go_to_configured_url (cfg : config) (l : list (Z * input))
    (id : nat) (url : string) (payload : jsval) :
  PostCall id url payload ∈ (steps cfg initial l).2 →
  url = dingtalkWebhookUrl cfg
  ∧ url ≠ ""
  ∧ ∃ text, payload = text_payload text.
Proof.
  assert (∀ l srv, well_formed cfg srv →
            PostCall id url payload ∈ (steps cfg srv l).2 →
            url = dingtalkWebhookUrl cfg
            ∧ JsString.truthy url = true
            ∧ ∃ text, payload = text_payload text) as Hall.
  { clear l. induction l as [|[now i] l IH]; intros srv Hwf Hin.
    { by apply elem_of_nil in Hin. }
    rewrite steps_cons in Hin. cbn [snd] in Hin.
    apply elem_of_app in Hin as [Hin | Hin].
    - exact (step_effects cfg now srv i _ Hwf Hin).
    - destruct (step_turn cfg now srv i Hwf) as (kind & Hturn & _).
      exact (IH _ (turn_well_formed cfg _ _ _ _ Hwf Hturn) Hin). }
  intros Hin.
  destruct (Hall l initial (initial_well_formed cfg) Hin) as (Hu & Ht & Hp).
  split; [exact Hu|]. split; [by apply truthy_nonempty | exact Hp].
Qed.

Lemma posts_go_to_configured_url_witness :
  "http://hook" = dingtalkWebhookUrl Sample.cfg_url
  ∧ "http://hook" ≠ ""
  ∧ ∃ text, text_payload "请稍候，我正在思考..." = text_payload text.
Proof.
  apply (posts_go_to_configured_url Sample.cfg_url
           [(0%Z, Request Sample.hello); (10%Z, Request Sample.hello)] 1
           "http://hook" (text_payload "请稍候，我正在思考...")).
  assert ((steps Sample.cfg_url initial
             [(0%Z, Request Sample.hello); (10%Z, Request Sample.hello)]).2
          = [Response 0 200 (json_status "ok");
             ExecCall 0 (agent_command Sample.cfg_url "Moltbot hello") 130000;
             Response 1 200 (json_status "ok");
             PostCall 1 "http://hook" (text_payload "请稍候，我正在思考...")])
    as -> by (vm_compute; reflexivity).
  do 3 (apply elem_of_cons; right). by apply list_elem_of_singleton.
Defined.
